(** * The MORSE adapter of OMPL ([scripts/morse/environment.py])

    A shallow embedding of [MyEnvironment] and [MyGoal]: the RPC client
    ([call]), the state codec ([readState], [stateToList], [writeState]),
    the control applier ([applyControl]), the world stepper ([worldStep])
    and the goal evaluator ([dist], [isSatisfied_Py]).

    Python is dynamically typed and the adapter's arithmetic works on any
    numeric type, so the embedding is written once over an interface
    [PyNum] and used at two instances: IEEE binary64 ([float], what the
    simulator really sends) and exact rationals ([Q], where notions such as
    "unit quaternion" are meaningful).  The power [x ** 2] has an interface
    of its own, [PyPow]: on a [float] Python leaves it to the C library. *)

From Stdlib Require Import ZArith List String Ascii Bool Lia QArith Lqa Floats.
From Stdlib Require Import DecimalString.
Import ListNotations.

Set Implicit Arguments.
Set Warnings "-register-all".
Close Scope Q_scope.
Open Scope string_scope.
Open Scope list_scope.
Open Scope nat_scope.

(* ================================================================= *)
(** ** Exceptions and results *)

(** The Python exceptions the adapter can raise or let through.  The last
    one, [Unchecked], is no exception of Python: it marks an index past the
    end of one of the planner's C++ objects (the compound state, the
    projection vector).  Their indexing is not checked, what the process
    does then is not defined, and the model stops there. *)
Inductive exn : Type :=
| IndexError          (* index out of range in a Python sequence *)
| TypeError           (* indexing or iterating a number, wrong block kind *)
| AttributeError      (* [.w] on a block that is not a quaternion *)
| UnboundLocalError   (* reading a local variable that was never bound *)
| ValueError          (* [round(nan)] *)
| OverflowError       (* [round(inf)], a power too large for a [float] *)
| SocketError         (* [sendall] or [recv] failed *)
| SyntaxError         (* [eval] could not decode the reply *)
| Unchecked.          (* index past the end of a C++ object: undefined *)

Inductive result (A : Type) : Type :=
| Ok (a : A)
| Raise (e : exn).
Arguments Ok {A} a.
Arguments Raise {A} e.

Definition bind {A B : Type} (r : result A) (k : A -> result B) : result B :=
  match r with
  | Ok a => k a
  | Raise e => Raise e
  end.

Notation "x <- r ;; k" := (bind r (fun x => k))
  (at level 61, r at next level, right associativity).

Definition is_ok {A : Type} (r : result A) : bool :=
  match r with Ok _ => true | Raise _ => false end.

(* ================================================================= *)
(** ** Numbers *)

(** [round(x)] of Python 3 on the exact quotient [n / d] ([0 < d]): the
    nearest integer, a tie going to the even neighbour. *)
Definition round_half_even (n d : Z) : Z :=
  let q := (n / d)%Z in
  let r := (n mod d)%Z in
  match (2 * r ?= d)%Z with
  | Lt => q
  | Gt => (q + 1)%Z
  | Eq => if Z.even q then q else (q + 1)%Z
  end.

(** What the adapter asks of its numbers.  [num_of_int] is the coercion
    Python applies when an [int] meets a number ([0 + x], [1 - x],
    [len(crit) * 0.1], [1.0 / 60]); [num_tenth] is the literal [0.1]. *)
Class PyNum (T : Type) : Type := {
  num_of_int : Z -> T;
  num_tenth : T;
  num_add : T -> T -> T;
  num_sub : T -> T -> T;
  num_mul : T -> T -> T;
  num_div : T -> T -> T;
  num_gtb : T -> T -> bool;       (* [a > b] *)
  num_eqb : T -> T -> bool;       (* [a == b] *)
  num_round : T -> result Z       (* [int(round(a))] *)
}.

(** Exact rationals (Python's [fractions.Fraction]).  A literal stays the
    [float] it is, and a [Fraction] is compared with a [float] at the exact
    value of the [float]: [num_tenth] is the exact value of the double
    [0.1].  Sums, differences and products of rationals are exact.  The
    one division of the adapter, in [worldStep], would turn a [Fraction]
    into a [float]: [num_div] and [num_round] are here the exact
    operations, and [worldStep] is never evaluated at this instance. *)
#[export] Instance PyNum_Q : PyNum Q := {
  num_of_int := inject_Z;
  num_tenth := 3602879701896397 # 36028797018963968;
  num_add := Qplus;
  num_sub := Qminus;
  num_mul := Qmult;
  num_div := Qdiv;
  num_gtb := fun a b => negb (Qle_bool a b);
  num_eqb := Qeq_bool;
  num_round := fun q => Ok (round_half_even (Qnum q) (Zpos (Qden q)))
}.

(** [float(z)]: the binary64 nearest to the integer [z]. *)
Definition float_of_Z (z : Z) : float :=
  SF2Prim (binary_normalize prec emax z 0 false).

(** [int(round(x))] on a binary64: [round] raises [ValueError] on a NaN and
    [OverflowError] on an infinity; a finite [x] is [(-1)^s * m * 2^e]. *)
Definition float_round (x : float) : result Z :=
  match Prim2SF x with
  | S754_zero _ => Ok 0%Z
  | S754_infinity _ => Raise OverflowError
  | S754_nan => Raise ValueError
  | S754_finite s m e =>
      let n := if s then Zneg m else Zpos m in
      Ok (match e with
          | Z0 => n
          | Zpos p => (n * 2 ^ Zpos p)%Z
          | Zneg p => round_half_even n (2 ^ Zpos p)
          end)
  end.

(** IEEE binary64 (Python's [float]).  The literal [0.1] is the double
    [0x1.999999999999ap-4]. *)
#[export] Instance PyNum_float : PyNum float := {
  num_of_int := float_of_Z;
  num_tenth := 0x1.999999999999ap-4%float;
  num_add := PrimFloat.add;
  num_sub := PrimFloat.sub;
  num_mul := PrimFloat.mul;
  num_div := PrimFloat.div;
  num_gtb := fun a b => PrimFloat.ltb b a;
  num_eqb := PrimFloat.eqb;
  num_round := float_round
}.

(** [x ** 2].  It can raise: on a [float] Python raises [OverflowError]
    where the square is too large. *)
Class PyPow (T : Type) : Type := {
  num_sq : T -> result T
}.

(** On a [Fraction] the power with an [int] exponent is exact. *)
#[export] Instance PyPow_Q : PyPow Q := {
  num_sq := fun x => Ok (x * x)%Q
}.

(** On a [float], as [float_pow] of CPython has it.  A NaN, an infinity, a
    zero, [1] and [-1] are answered at once.  Any other [x] goes to the C
    library as [pow(|x|, 2.0)]; [libm_sq] stands for that call together
    with what [float_pow] makes of [errno] afterwards (a range error
    raises [OverflowError]), and an infinite result raises
    [OverflowError] whatever [errno] says. *)
Definition float_sq (libm_sq : float -> result float) (x : float)
  : result float :=
  match classify x with
  | NaN => Ok x
  | PInf | NInf => Ok infinity
  | PZero | NZero => Ok 0%float
  | _ =>
      if PrimFloat.eqb (abs x) 1
      then Ok 1%float
      else
        y <- libm_sq (abs x) ;;
        match classify y with
        | PInf | NInf => Raise OverflowError
        | _ => Ok y
        end
  end.

Definition float_pow (libm_sq : float -> result float) : PyPow float :=
  {| num_sq := float_sq libm_sq |}.

(** A C library whose [pow] rounds correctly and reports no range error
    of its own: the square is the rounded product. *)
Definition rounded_sq (a : float) : result float := Ok (a * a)%float.

(* ================================================================= *)
(** ** Goal evaluator: [MyGoal] *)

Section GoalEvaluator.
Context {T : Type} {N : PyNum T} {P : PyPow T}.

(** The built-in [sum] on a generator: it starts from the integer [0],
    takes the items one at a time and adds them from left to right; an
    item that raises ends the sum (Python 3.12 and later compensate the
    rounding of a sum of floats; the adapter predates them). *)
Fixpoint sum_from (acc : T) (items : list (result T)) : result T :=
  match items with
  | [] => Ok acc
  | r :: rest => x <- r ;; sum_from (num_add acc x) rest
  end.

Definition py_sum (items : list (result T)) : result T :=
  sum_from (num_of_int 0) items.

Definition vec3 : Type := T * T * T.
Definition vec4 : Type := T * T * T * T.

(** [v[i]] for [i] in [range(3)] and [range(4)]. *)
Definition at3 (v : vec3) (i : nat) : T :=
  let '(a, b, c) := v in
  match i with 0 => a | 1 => b | _ => c end.

Definition at4 (v : vec4) (i : nat) : T :=
  let '(a, b, c, d) := v in
  match i with 0 => a | 1 => b | 2 => c | _ => d end.

(** The 4-tuples [dist] works on: item [0] is a position and item [3] an
    orientation quaternion [(w, x, y, z)]; items [1] and [2] are carried
    along and never read.  [A] is what they are. *)
Record tuple4 (A : Type) : Type := Tuple4 {
  bt_pos : vec3;
  bt_lin : A;
  bt_ang : A;
  bt_quat : vec4
}.

(** A rigid body as the simulator gives it and as [stateToList] builds it:
    (position, linear velocity, angular velocity, orientation). *)
Definition body_tuple : Type := tuple4 vec3.

Definition BodyTuple (p l a : vec3) (q : vec4) : body_tuple := Tuple4 p l a q.

(** [sum((s1[0][i]-s2[0][i])**2 for i in range(3))]. *)
Definition pos_term {A B : Type} (s1 : tuple4 A) (s2 : tuple4 B) : result T :=
  py_sum (map (fun i => num_sq (num_sub (at3 (bt_pos s1) i) (at3 (bt_pos s2) i)))
              (seq 0 3)).

(** [sum(s1[3][i]*s2[3][i] for i in range(4))]. *)
Definition quat_dot {A B : Type} (s1 : tuple4 A) (s2 : tuple4 B) : result T :=
  py_sum (map (fun i => Ok (num_mul (at4 (bt_quat s1) i) (at4 (bt_quat s2) i)))
              (seq 0 4)).

(** [1 - sum(...)**2]. *)
Definition orient_term {A B : Type} (s1 : tuple4 A) (s2 : tuple4 B) : result T :=
  d <- quat_dot s1 s2 ;;
  d2 <- num_sq d ;;
  Ok (num_sub (num_of_int 1) d2).

(** [MyGoal.dist]: the left operand of [+] is evaluated first. *)
Definition dist {A B : Type} (s1 : tuple4 A) (s2 : tuple4 B) : result T :=
  p <- pos_term s1 s2 ;;
  o <- orient_term s1 s2 ;;
  Ok (num_add p o).

(** The planner's compound state: a flat sequence of sub-states, four per
    rigid body (three real vectors, then a rotation).  [state[i][k]] reads
    a real vector, [state[i].w] a rotation. *)
Inductive SubState : Type :=
| RealVector (v : vec3)
| SO3 (q : vec4).

Definition State : Type := list SubState.

(** [state[i]].  The state is a C++ object of the planner: an index past
    its last block is not checked. *)
Definition state_at (state : State) (i : nat) : result SubState :=
  match nth_error state i with
  | Some b => Ok b
  | None => Raise Unchecked
  end.

(** The three components [b[0], b[1], b[2]] of a real-vector block. *)
Definition as_vector (b : SubState) : result vec3 :=
  match b with
  | RealVector v => Ok v
  | SO3 _ => Raise TypeError
  end.

(** [(b.w, b.x, b.y, b.z)] of a rotation block. *)
Definition as_quat (b : SubState) : result vec4 :=
  match b with
  | SO3 q => Ok q
  | RealVector _ => Raise AttributeError
  end.

(** A goal criterion [(i, target)]: the index of a rigid body and its goal
    state.  As a Python tuple it has two items. *)
Record criterion : Type := Criterion {
  crit_body : nat;
  crit_target : body_tuple
}.

(** [len(crit)]. *)
Definition len_crit (c : criterion) : Z := 2.

(** The body of the [for crit in self.criteria] loop: it builds [stateTup]
    from the four blocks of body [crit[0]] (reading [quat.w] fails on a
    block that is no rotation, [s1[0][i]] on one that is no vector) and adds
    its distance to the target. *)
Definition crit_step (state : State) (distance : T) (crit : criterion)
  : result T :=
  let b := crit_body crit in
  quat <- state_at state (4 * b + 3) ;;
  s0 <- state_at state (4 * b + 0) ;;
  s1 <- state_at state (4 * b + 1) ;;
  s2 <- state_at state (4 * b + 2) ;;
  q <- as_quat quat ;;
  p <- as_vector s0 ;;
  d <- dist (Tuple4 p s1 s2 q) (crit_target crit) ;;
  Ok (num_add distance d).

(** The loop, carrying [self.distance] and the loop variable [crit], which
    is unbound ([None]) until the first iteration binds it. *)
Fixpoint crit_loop (state : State) (criteria : list criterion)
    (distance : T) (crit : option criterion)
  : result (T * option criterion) :=
  match criteria with
  | [] => Ok (distance, crit)
  | c :: rest =>
      d <- crit_step state distance c ;;
      crit_loop state rest d (Some c)
  end.

(** [MyGoal.isSatisfied_Py]: the value of [self.distance] when it returns,
    and the returned boolean. *)
Definition isSatisfied_Py (criteria : list criterion) (state : State)
  : result (T * bool) :=
  r <- crit_loop state criteria (num_of_int 0) None ;;
  match snd r with
  | None => Raise UnboundLocalError
  | Some crit =>
      if num_gtb (fst r) (num_mul (num_of_int (len_crit crit)) num_tenth)
      then Ok (fst r, false)
      else Ok (fst r, true)
  end.

End GoalEvaluator.

Arguments vec3 T : clear implicits.
Arguments vec4 T : clear implicits.
Arguments tuple4 T A : clear implicits.
Arguments body_tuple T : clear implicits.
Arguments SubState T : clear implicits.
Arguments State T : clear implicits.
Arguments criterion T : clear implicits.

(* ================================================================= *)
(** ** Sockets *)

(** What a socket saw: every [sendall] and [recv] made on it, in order. *)
Inductive sock_event : Type :=
| Sent (msg : string)
| SendFailed (msg : string)
| Received (data : string)
| RecvFailed.

(** A socket together with the behaviour of its peer.  [send_script] gives
    the outcome of the coming [sendall] calls ([false]: the call raises;
    once the script is used up every call succeeds), [recv_script] what
    the coming [recv] calls return ([None]: the call raises; once it is
    used up the peer has closed the connection and [recv] returns the
    empty byte string). *)
Record Socket : Type := {
  send_script : list bool;
  recv_script : list (option string);
  trace : list sock_event
}.

Definition sendall (s : Socket) (msg : string) : Socket * result unit :=
  match send_script s with
  | false :: rest =>
      ({| send_script := rest; recv_script := recv_script s;
          trace := trace s ++ [SendFailed msg] |}, Raise SocketError)
  | true :: rest =>
      ({| send_script := rest; recv_script := recv_script s;
          trace := trace s ++ [Sent msg] |}, Ok tt)
  | [] =>
      ({| send_script := []; recv_script := recv_script s;
          trace := trace s ++ [Sent msg] |}, Ok tt)
  end.

Definition recv (s : Socket) : Socket * result string :=
  match recv_script s with
  | Some data :: rest =>
      ({| send_script := send_script s; recv_script := rest;
          trace := trace s ++ [Received data] |}, Ok data)
  | None :: rest =>
      ({| send_script := send_script s; recv_script := rest;
          trace := trace s ++ [RecvFailed] |}, Raise SocketError)
  | [] =>
      ({| send_script := send_script s; recv_script := [];
          trace := trace s ++ [Received ""] |}, Ok "")
  end.

(** The messages a socket carried ([sendall] calls that succeeded). *)
Fixpoint sent_messages (tr : list sock_event) : list string :=
  match tr with
  | [] => []
  | Sent m :: rest => m :: sent_messages rest
  | _ :: rest => sent_messages rest
  end.

(** The [sendall] calls made, failed ones included. *)
Fixpoint send_attempts (tr : list sock_event) : list string :=
  match tr with
  | [] => []
  | Sent m :: rest => m :: send_attempts rest
  | SendFailed m :: rest => m :: send_attempts rest
  | _ :: rest => send_attempts rest
  end.

(** The [recv] calls made, failed ones included. *)
Fixpoint recv_attempts (tr : list sock_event) : nat :=
  match tr with
  | [] => 0
  | Received _ :: rest => S (recv_attempts rest)
  | RecvFailed :: rest => S (recv_attempts rest)
  | _ :: rest => recv_attempts rest
  end.

(* ================================================================= *)
(** ** Decoded replies and Python's built-ins *)

(** A decoded reply: numbers nested in tuples and lists (both are
    sequences to the code that reads them). *)
Inductive pyval (T : Type) : Type :=
| PNum (x : T)
| PSeq (items : list (pyval T)).
Arguments PNum {T} x.
Arguments PSeq {T} items.

(** The two built-ins whose work is not the adapter's: [repr] of a number
    and [eval] of a reply. *)
Class PyBuiltins (T : Type) : Type := {
  py_repr : T -> string;
  py_eval : string -> result (pyval T)
}.

(** [', '.join(items)]. *)
Fixpoint join_comma (items : list string) : string :=
  match items with
  | [] => ""
  | [x] => x
  | x :: rest => x ++ ", " ++ join_comma rest
  end.

(** [repr] of a tuple of two items or more, and of a list. *)
Definition repr_tuple (items : list string) : string :=
  "(" ++ join_comma items ++ ")".

Definition repr_list (items : list string) : string :=
  "[" ++ join_comma items ++ "]".

(** [s.startswith(p)]. *)
Fixpoint starts_with (p s : string) : bool :=
  match p with
  | EmptyString => true
  | String a p' =>
      match s with
      | String b s' => Ascii.eqb a b && starts_with p' s'
      | EmptyString => false
      end
  end.

(** [s.replace(old, new)] for a non-empty [old]: the occurrences of [old]
    are found from left to right and do not overlap.  [skip] counts the
    characters of an occurrence that are still to be passed over. *)
Fixpoint replace_from (old new : string) (skip : nat) (s : string) : string :=
  match s with
  | EmptyString => EmptyString
  | String c rest =>
      match skip with
      | S k => replace_from old new k rest
      | O =>
          if starts_with old s
          then new ++ replace_from old new (String.length old - 1) rest
          else String c (replace_from old new 0 rest)
      end
  end.

Definition str_replace (old new s : string) : string :=
  replace_from old new 0 s.

(** The double quote and the line feed. *)
Definition dquote : string := String "034"%char EmptyString.
Definition newline : string := String "010"%char EmptyString.

(** The literals ['float("nan")'] and ['float("inf")']. *)
Definition float_nan_expr : string := "float(" ++ dquote ++ "nan" ++ dquote ++ ")".
Definition float_inf_expr : string := "float(" ++ dquote ++ "inf" ++ dquote ++ ")".

(* ================================================================= *)
(** ** The environment: [MyEnvironment] *)

(** One channel of the control description: [controller[0]] (the
    component's name), [controller[1]] (the service to request) and
    [controller[2]] (how many control values it takes). *)
Record controller : Type := {
  ctl_name : string;
  ctl_cmd : string;
  ctl_dim : nat
}.

Section Environment.
Context {T : Type} {N : PyNum T} {B : PyBuiltins T}.

(** The fields of [self]: the two sockets, [simRunning], the control
    description [cdesc] (its head [cdesc[0]] and its tail [cdesc[1:]]),
    the control cache [con] and the body count [rigidBodies_] of the base
    class. *)
Record MyEnvironment : Type := {
  sockS : Socket;
  sockC : Socket;
  simRunning : bool;
  cdesc_dim : nat;
  cdesc_controllers : list controller;
  con : list T;
  rigidBodies_ : nat
}.

Definition set_sockS (env : MyEnvironment) (s : Socket) : MyEnvironment :=
  {| sockS := s; sockC := sockC env; simRunning := simRunning env;
     cdesc_dim := cdesc_dim env; cdesc_controllers := cdesc_controllers env;
     con := con env; rigidBodies_ := rigidBodies_ env |}.

Definition set_sockC (env : MyEnvironment) (s : Socket) : MyEnvironment :=
  {| sockS := sockS env; sockC := s; simRunning := simRunning env;
     cdesc_dim := cdesc_dim env; cdesc_controllers := cdesc_controllers env;
     con := con env; rigidBodies_ := rigidBodies_ env |}.

Definition set_simRunning (env : MyEnvironment) (b : bool) : MyEnvironment :=
  {| sockS := sockS env; sockC := sockC env; simRunning := b;
     cdesc_dim := cdesc_dim env; cdesc_controllers := cdesc_controllers env;
     con := con env; rigidBodies_ := rigidBodies_ env |}.

Definition set_con (env : MyEnvironment) (c : list T) : MyEnvironment :=
  {| sockS := sockS env; sockC := sockC env; simRunning := simRunning env;
     cdesc_dim := cdesc_dim env; cdesc_controllers := cdesc_controllers env;
     con := c; rigidBodies_ := rigidBodies_ env |}.

(** [eval(reply)]: the empty byte string, which is what [recv] returns on
    a closed connection, is no expression. *)
Definition eval_reply (reply : string) : result (pyval T) :=
  match reply with
  | EmptyString => Raise SyntaxError
  | _ => py_eval reply
  end.

(** [MyEnvironment.call]: whatever is raised inside the [try] clears
    [simRunning] and is raised again. *)
Definition call (env : MyEnvironment) (cmd : string)
  : MyEnvironment * result (pyval T) :=
  let (s1, r1) := sendall (sockS env) cmd in
  match r1 with
  | Raise e => (set_simRunning (set_sockS env s1) false, Raise e)
  | Ok _ =>
      let (s2, r2) := recv s1 in
      match r2 with
      | Raise e => (set_simRunning (set_sockS env s2) false, Raise e)
      | Ok reply =>
          match eval_reply reply with
          | Raise e => (set_simRunning (set_sockS env s2) false, Raise e)
          | Ok v => (set_sockS env s2, Ok v)
          end
      end
  end.

(** [v[j]] on a decoded value. *)
Definition item (v : pyval T) (j : nat) : result (pyval T) :=
  match v with
  | PSeq l =>
      match nth_error l j with
      | Some x => Ok x
      | None => Raise IndexError
      end
  | PNum _ => Raise TypeError
  end.

(** A decoded value where a number is wanted (the state's components are
    C++ doubles). *)
Definition as_num (v : pyval T) : result T :=
  match v with
  | PNum x => Ok x
  | PSeq _ => Raise TypeError
  end.

Definition upd3 (v : vec3 T) (k : nat) (x : T) : vec3 T :=
  let '(a, b, c) := v in
  match k with 0 => (x, b, c) | 1 => (a, x, c) | _ => (a, b, x) end.

Definition upd4 (v : vec4 T) (k : nat) (x : T) : vec4 T :=
  let '(a, b, c, d) := v in
  match k with
  | 0 => (x, b, c, d) | 1 => (a, x, c, d) | 2 => (a, b, x, d) | _ => (a, b, c, x)
  end.

(** [l[i] = b] on a list that has an item [i]. *)
Fixpoint list_set {A : Type} (l : list A) (i : nat) (b : A) : list A :=
  match l, i with
  | [], _ => []
  | _ :: rest, O => b :: rest
  | a :: rest, S i' => a :: list_set rest i' b
  end.

(** [state[i][k] = x]. *)
Definition set_component (state : State T) (i k : nat) (x : T)
  : result (State T) :=
  blk <- state_at state i ;;
  match blk with
  | RealVector v => Ok (list_set state i (RealVector (upd3 v k x)))
  | SO3 _ => Raise TypeError
  end.

(** [state[i].w = x] and the like: field [k] of [(w, x, y, z)]. *)
Definition set_quat_field (state : State T) (i k : nat) (x : T)
  : result (State T) :=
  blk <- state_at state i ;;
  match blk with
  | SO3 q => Ok (list_set state i (SO3 (upd4 q k x)))
  | RealVector _ => Raise AttributeError
  end.

(** [obj[j][k]], as a number. *)
Definition component (obj : pyval T) (j k : nat) : result T :=
  b <- item obj j ;; c <- item b k ;; as_num c.

(** One assignment of [readState]: the right-hand side, [rhs], is
    evaluated first, then the target is written.  The state is a mutable
    object, so what was written before a failure stays written. *)
Definition assign (setter : State T -> nat -> nat -> T -> result (State T))
    (rhs : result T) (i k : nat) (state : State T)
  : State T * result unit :=
  match rhs with
  | Raise e => (state, Raise e)
  | Ok x =>
      match setter state i k x with
      | Ok state' => (state', Ok tt)
      | Raise e => (state, Raise e)
      end
  end.

(** Statements run in sequence until one raises. *)
Fixpoint run (stmts : list (State T -> State T * result unit))
    (state : State T) : State T * result unit :=
  match stmts with
  | [] => (state, Ok tt)
  | stmt :: rest =>
      match stmt state with
      | (state', Ok _) => run rest state'
      | (state', Raise e) => (state', Raise e)
      end
  end.

(** The body of [for obj in simState], entered with the running index [i]:
    three 3-vectors into the blocks [i], [i+1], [i+2], then the four
    numbers of [obj[3]] into the rotation block [i+3]. *)
Definition read_body (obj : pyval T) (i : nat)
  : list (State T -> State T * result unit) :=
  flat_map (fun j => map (fun k => assign set_component (component obj j k) (i + j) k)
                        (seq 0 3))
           (seq 0 3)
  ++ map (fun k => assign set_quat_field (component obj 3 k) (i + 3) k) (seq 0 4).

Fixpoint read_bodies (objs : list (pyval T)) (i : nat)
  : list (State T -> State T * result unit) :=
  match objs with
  | [] => []
  | obj :: rest => read_body obj i ++ read_bodies rest (i + 4)
  end.

(** [MyEnvironment.readState]: the new [self], the state object after the
    call, and how the call ended. *)
Definition readState (env : MyEnvironment) (state : State T)
  : MyEnvironment * State T * result unit :=
  match call env "extractState()" with
  | (env', Raise e) => (env', state, Raise e)
  | (env', Ok (PNum _)) => (env', state, Raise TypeError)
  | (env', Ok (PSeq objs)) =>
      let (state', r) := run (read_bodies objs 0) state in
      (env', state', r)
  end.

(** One item of [stateToList]: the four blocks from index [i] on. *)
Definition body_at (state : State T) (i : nat) : result (body_tuple T) :=
  p <- (b <- state_at state i ;; as_vector b) ;;
  l <- (b <- state_at state (i + 1) ;; as_vector b) ;;
  a <- (b <- state_at state (i + 2) ;; as_vector b) ;;
  q <- (b <- state_at state (i + 3) ;; as_quat b) ;;
  Ok (BodyTuple p l a q).

Fixpoint collect {A C : Type} (f : A -> result C) (l : list A)
  : result (list C) :=
  match l with
  | [] => Ok []
  | a :: rest => x <- f a ;; xs <- collect f rest ;; Ok (x :: xs)
  end.

(** [MyEnvironment.stateToList]: [range(0, self.rigidBodies_*4, 4)] is
    [4 * b] for [b] in [range(self.rigidBodies_)]. *)
Definition stateToList (env : MyEnvironment) (state : State T)
  : result (list (body_tuple T)) :=
  collect (fun b => body_at state (4 * b)) (seq 0 (rigidBodies_ env)).

(** [repr] of the list [stateToList] returns. *)
Definition repr_vec3 (v : vec3 T) : string :=
  let '(a, b, c) := v in repr_tuple [py_repr a; py_repr b; py_repr c].

Definition repr_vec4 (v : vec4 T) : string :=
  let '(a, b, c, d) := v in
  repr_tuple [py_repr a; py_repr b; py_repr c; py_repr d].

Definition repr_body (bt : body_tuple T) : string :=
  repr_tuple [repr_vec3 (bt_pos bt); repr_vec3 (bt_lin bt);
              repr_vec3 (bt_ang bt); repr_vec4 (bt_quat bt)].

Definition repr_state (l : list (body_tuple T)) : string :=
  repr_list (map repr_body l).

(** The text [writeState] puts between the brackets of [submitState(...)]. *)
Definition state_text (l : list (body_tuple T)) : string :=
  str_replace "inf" float_inf_expr
    (str_replace "nan" float_nan_expr (repr_state l)).

(** [MyEnvironment.writeState]. *)
Definition writeState (env : MyEnvironment) (state : State T)
  : MyEnvironment * result unit :=
  match stateToList env state with
  | Raise e => (env, Raise e)
  | Ok l =>
      match call env ("submitState(" ++ state_text l ++ ")") with
      | (env', Raise e) => (env', Raise e)
      | (env', Ok _) => (env', Ok tt)
      end
  end.

(** [self.con != con] on lists: same length and equal items. *)
Fixpoint list_eqb (l1 l2 : list T) : bool :=
  match l1, l2 with
  | [], [] => true
  | x :: r1, y :: r2 => num_eqb x y && list_eqb r1 r2
  | _, _ => false
  end.

(** [con[i:j]]: a slice stops where the list does. *)
Definition slice (l : list T) (i j : nat) : list T :=
  firstn (j - i) (skipn i l).

(** ['id %s %s %s\n' % (controller[0], controller[1], con[i:i+controller[2]])]. *)
Definition request (c : controller) (con' : list T) (i : nat) : string :=
  "id " ++ ctl_name c ++ " " ++ ctl_cmd c ++ " "
  ++ repr_list (map py_repr (slice con' i (i + ctl_dim c))) ++ newline.

(** [for controller in self.cdesc[1:]], entered with the running index [i]. *)
Fixpoint send_controls (env : MyEnvironment) (cs : list controller)
    (con' : list T) (i : nat) : MyEnvironment * result unit :=
  match cs with
  | [] => (env, Ok tt)
  | c :: rest =>
      let (s, r) := sendall (sockC env) (request c con' i) in
      match r with
      | Raise e => (set_sockC env s, Raise e)
      | Ok _ => send_controls (set_sockC env s) rest con' (i + ctl_dim c)
      end
  end.

(** [MyEnvironment.applyControl]. *)
Definition applyControl (env : MyEnvironment) (control : list T)
  : MyEnvironment * result unit :=
  let con' := control in
  if negb (list_eqb (con env) con')
  then send_controls (set_con env con') (cdesc_controllers env) con' 0
  else (env, Ok tt).

(** [for i in range(n): self.call('nextTick()')]. *)
Fixpoint tick_loop (env : MyEnvironment) (n : nat)
  : MyEnvironment * result unit :=
  match n with
  | O => (env, Ok tt)
  | S n' =>
      match call env "nextTick()" with
      | (env', Raise e) => (env', Raise e)
      | (env', Ok _) => tick_loop env' n'
      end
  end.

(** [int(round(dur/(1.0/60)))]. *)
Definition tick_count (dur : T) : result Z :=
  num_round (num_div dur (num_div (num_of_int 1) (num_of_int 60))).

(** [MyEnvironment.worldStep]: [range] of a negative number is empty. *)
Definition worldStep (env : MyEnvironment) (dur : T)
  : MyEnvironment * result unit :=
  match tick_count dur with
  | Raise e => (env, Raise e)
  | Ok n => tick_loop env (Z.to_nat n)
  end.

(** [MyEnvironment.endSimulation]. *)
Definition endSimulation (env : MyEnvironment) : MyEnvironment * result unit :=
  if simRunning env
  then match call env "endSimulation()" with
       | (env', Raise e) => (env', Raise e)
       | (env', Ok _) => (env', Ok tt)
       end
  else (env, Ok tt).

End Environment.

Arguments MyEnvironment T : clear implicits.

(* ================================================================= *)
(** ** Text of binary64 numbers *)

(** The value of a decimal digit. *)
Definition digit_of (c : ascii) : option Z :=
  let n := nat_of_ascii c in
  if (48 <=? n) && (n <=? 57) then Some (Z.of_nat (n - 48)) else None.

(** The digits at the head of [s]: their value after [acc], how many
    there are, and what follows them. *)
Fixpoint read_digits (s : string) (acc : Z) (count : nat) : Z * nat * string :=
  match s with
  | String c rest =>
      match digit_of c with
      | Some d => read_digits rest (10 * acc + d)%Z (S count)
      | None => (acc, count, s)
      end
  | EmptyString => (acc, count, s)
  end.

(** The binary64 nearest to [(-1)^neg * n * 10^e10], ties to even: one
    correctly rounded division (or multiplication) of exact integers. *)
Definition decimal_to_float (neg : bool) (n : Z) (e10 : Z) : float :=
  let sf :=
    match n with
    | Zpos p =>
        match e10 with
        | Zneg k =>
            SFdiv prec emax (S754_finite false p 0)
                            (S754_finite false (Pos.pow 10 k) 0)
        | _ => binary_normalize prec emax (n * 10 ^ e10) 0 false
        end
    | _ => S754_zero false
    end in
  SF2Prim (if neg then SFopp sf else sf).

(** An optional sign at the head of [s]. *)
Definition read_sign (s : string) : bool * string :=
  match s with
  | String "-" rest => (true, rest)
  | String "+" rest => (false, rest)
  | _ => (false, s)
  end.

(** A Python number literal with an optional sign in front:
    [digits [. digits] [e [sign] digits]], at least one digit in the
    mantissa.  [None] when [s] is no such literal. *)
Definition float_literal (s : string) : option float :=
  let (neg, s0) := read_sign s in
  let '(ip, ni, s1) := read_digits s0 0%Z 0 in
  let '(m, nf, s2) :=
    match s1 with
    | String "." rest =>
        let '(m, nf, s2) := read_digits rest ip 0 in (m, nf, s2)
    | _ => (ip, 0, s1)
    end in
  if (ni + nf =? 0) then None else
  match s2 with
  | EmptyString => Some (decimal_to_float neg m (- Z.of_nat nf))
  | String "e" rest =>
      let (eneg, s3) := read_sign rest in
      let '(ex, ne, s4) := read_digits s3 0%Z 0 in
      match ne, s4 with
      | S _, EmptyString =>
          Some (decimal_to_float neg m ((if eneg then - ex else ex) - Z.of_nat nf))
      | _, _ => None
      end
  | _ => None
  end.

(** The characters number literals are made of. *)
Definition literal_char (c : ascii) : bool :=
  match digit_of c with
  | Some _ => true
  | None =>
      match c with
      | "."%char | "e"%char | "+"%char | "-"%char => true
      | _ => false
      end
  end.

Fixpoint all_chars (p : ascii -> bool) (s : string) : bool :=
  match s with
  | EmptyString => true
  | String c rest => p c && all_chars p rest
  end.

(** The longest head of [s] made of literal characters, and the rest. *)
Fixpoint span_literal (s : string) : string * string :=
  match s with
  | String c rest =>
      if literal_char c
      then let (tok, rest') := span_literal rest in (String c tok, rest')
      else (EmptyString, s)
  | EmptyString => (EmptyString, EmptyString)
  end.

(** [s[n:]]. *)
Fixpoint drop (n : nat) (s : string) : string :=
  match n, s with
  | S n', String _ rest => drop n' rest
  | _, _ => s
  end.

(** A number where the text has one: the three rewritten forms, or a
    literal. *)
Definition parse_number (s : string) : option (pyval float * string) :=
  if starts_with float_nan_expr s
  then Some (PNum nan, drop (String.length float_nan_expr) s)
  else if starts_with float_inf_expr s
  then Some (PNum infinity, drop (String.length float_inf_expr) s)
  else if starts_with ("-" ++ float_inf_expr) s
  then Some (PNum neg_infinity, drop (S (String.length float_inf_expr)) s)
  else
    let (tok, rest) := span_literal s in
    match float_literal tok with
    | Some f => Some (PNum f, rest)
    | None => None
    end.

(** A value, and the items of a display up to its closing bracket
    ([parse_items] is entered after the opening bracket, and again after
    each separator, where [may_close] is off: an item must follow).
    Items are separated by a comma and a space; [(v)] is [v], not a
    tuple. *)
Fixpoint parse_value (fuel : nat) (s : string) {struct fuel}
  : option (pyval float * string) :=
  match fuel with
  | O => None
  | S fuel' =>
      match s with
      | EmptyString => None
      | String c rest =>
          if Ascii.eqb c "(" then
            match parse_items fuel' ")" true rest with
            | Some ([v], rest') => Some (v, rest')
            | Some (vs, rest') => Some (PSeq vs, rest')
            | None => None
            end
          else if Ascii.eqb c "[" then
            match parse_items fuel' "]" true rest with
            | Some (vs, rest') => Some (PSeq vs, rest')
            | None => None
            end
          else parse_number s
      end
  end
with parse_items (fuel : nat) (close : ascii) (may_close : bool) (s : string)
    {struct fuel} : option (list (pyval float) * string) :=
  match fuel with
  | O => None
  | S fuel' =>
      match s with
      | EmptyString => None
      | String c rest =>
          if may_close && Ascii.eqb c close then Some ([], rest) else
          match parse_value fuel' s with
          | None => None
          | Some (v, s1) =>
              if starts_with ", " s1 then
                match parse_items fuel' close false (drop 2 s1) with
                | Some (vs, s2) => Some (v :: vs, s2)
                | None => None
                end
              else
                match s1 with
                | String c1 s2 =>
                    if Ascii.eqb c1 close then Some ([v], s2) else None
                | EmptyString => None
                end
          end
      end
  end.

(** Modelled from the spec: the decoder on the simulator's side of the
    channel is not part of the adapter.  The spec has it decode "a textual
    literal representation of nested numeric tuples/sequences" that "must
    support inf/nan tokens"; this is that decoder, for the displays
    [writeState] sends and the replies [call] evaluates.  The whole text
    must be one value. *)
Definition literal_eval (s : string) : result (pyval float) :=
  match parse_value (S (String.length s)) s with
  | Some (v, EmptyString) => Ok v
  | _ => Raise SyntaxError
  end.

(** [repr] of a binary64: ['nan'], ['inf'] and ['-inf'] are fixed, and
    [repr_finite] is Python's shortest round-tripping decimal for the
    finite ones. *)
Definition float_repr (repr_finite : float -> string) (f : float) : string :=
  match classify f with
  | NaN => "nan"
  | PInf => "inf"
  | NInf => "-inf"
  | _ => repr_finite f
  end.

Definition float_builtins (repr_finite : float -> string) : PyBuiltins float :=
  {| py_repr := float_repr repr_finite; py_eval := literal_eval |}.

(** A printer of finite doubles to run the adapter with: the exact decimal
    expansion of [m * 2^e].  It is what [repr] prints whenever no shorter
    decimal denotes the same double ([0.5], [-2.25], [3.0], ...). *)
Fixpoint strip_zeros (rev_digits : list ascii) : list ascii :=
  match rev_digits with
  | "0"%char :: rest => strip_zeros rest
  | _ => rev_digits
  end.

Fixpoint pad_zeros (n : nat) (s : string) : string :=
  match n with
  | O => s
  | S n' => String "0" (pad_zeros n' s)
  end.

Definition exact_decimal (m : positive) (e : Z) : string :=
  match e with
  | Zneg k =>
      let kk := Pos.to_nat k in
      let ds0 := NilZero.string_of_uint (Pos.to_uint (m * Pos.pow 5 k)) in
      let ds := pad_zeros (S kk - String.length ds0) ds0 in
      let ip := String.substring 0 (String.length ds - kk) ds in
      let fp := String.substring (String.length ds - kk) kk ds in
      let fp' := string_of_list_ascii
                   (rev (strip_zeros (rev (list_ascii_of_string fp)))) in
      ip ++ "." ++ (if String.eqb fp' "" then "0" else fp')
  | _ => NilZero.string_of_uint (N.to_uint (Z.to_N (Zpos m * 2 ^ e))) ++ ".0"
  end.

Definition repr_exact (f : float) : string :=
  match Prim2SF f with
  | S754_zero s => if s then "-0.0" else "0.0"
  | S754_finite s m e => (if s then "-" else "") ++ exact_decimal m e
  | _ => ""
  end.

(** The numbers of a list of bodies, thirteen a body. *)
Definition body_nums {T : Type} (bt : body_tuple T) : list T :=
  let '(p0, p1, p2) := bt_pos bt in
  let '(l0, l1, l2) := bt_lin bt in
  let '(a0, a1, a2) := bt_ang bt in
  let '(w, x, y, z) := bt_quat bt in
  [p0; p1; p2; l0; l1; l2; a0; a1; a2; w; x; y; z].

(** The value a list of bodies denotes: a sequence of 4-tuples of tuples
    of numbers. *)
Definition vec3_value {T : Type} (v : vec3 T) : pyval T :=
  let '(a, b, c) := v in PSeq [PNum a; PNum b; PNum c].

Definition vec4_value {T : Type} (v : vec4 T) : pyval T :=
  let '(a, b, c, d) := v in PSeq [PNum a; PNum b; PNum c; PNum d].

Definition body_value {T : Type} (bt : body_tuple T) : pyval T :=
  PSeq [vec3_value (bt_pos bt); vec3_value (bt_lin bt);
        vec3_value (bt_ang bt); vec4_value (bt_quat bt)].

Definition state_value {T : Type} (l : list (body_tuple T)) : pyval T :=
  PSeq (map body_value l).

(** The layout of a state of [n] bodies: [4 * n] blocks, of which every
    fourth is a rotation and the others are real vectors. *)
Fixpoint layout {T : Type} (n : nat) (state : State T) : bool :=
  match n, state with
  | O, [] => true
  | S n', RealVector _ :: RealVector _ :: RealVector _ :: SO3 _ :: rest =>
      layout n' rest
  | _, _ => false
  end.

(* ================================================================= *)
(** ** The projection: [MyProjection] *)

Section Projection.
Context {T : Type} {N : PyNum T}.

(** [self.robotPosSpaceIndex], set to 4 by the constructor. *)
Definition robotPosSpaceIndex : nat := 4.

(** [MyProjection.getDimension]. *)
Definition getDimension : nat := 2.

(** [MyProjection.defaultCellSizes]: the value [self.cellSizes_] takes. *)
Definition defaultCellSizes : list T := [num_of_int 2; num_of_int 2].

(** [projection[k] = x] on the planner's projection vector, a C++ object
    like the state. *)
Definition set_projection (projection : list T) (k : nat) (x : T)
  : result (list T) :=
  match nth_error projection k with
  | Some _ => Ok (list_set projection k x)
  | None => Raise Unchecked
  end.

(** [state[self.robotPosSpaceIndex][k]]. *)
Definition robot_coordinate (state : State T) (k : nat) : result T :=
  b <- state_at state robotPosSpaceIndex ;;
  v <- as_vector b ;;
  Ok (at3 v k).

(** [MyProjection.project]: the projection vector after the call, and how
    the call ended.  Each right-hand side is evaluated before its target
    is written. *)
Definition project (state : State T) (projection : list T)
  : list T * result unit :=
  match robot_coordinate state 0 with
  | Raise e => (projection, Raise e)
  | Ok x =>
      match set_projection projection 0 x with
      | Raise e => (projection, Raise e)
      | Ok p1 =>
          match robot_coordinate state 1 with
          | Raise e => (p1, Raise e)
          | Ok y =>
              match set_projection p1 1 y with
              | Raise e => (p1, Raise e)
              | Ok p2 => (p2, Ok tt)
              end
          end
      end
  end.

End Projection.

(* ================================================================= *)
(** ** Vocabulary of the statements *)

(** *** Goal *)

(** A quaternion of norm one, in exact arithmetic. *)
Definition unit_quat (q : vec4 Q) : Prop :=
  let '(w, x, y, z) := q in (w * w + x * x + y * y + z * z == 1)%Q.

(** [-q]. *)
Definition quat_opp (q : vec4 Q) : vec4 Q :=
  let '(w, x, y, z) := q in ((- w)%Q, (- x)%Q, (- y)%Q, (- z)%Q).

(** Componentwise equality of rational quaternions. *)
Definition quat_eq (q1 q2 : vec4 Q) : Prop :=
  let '(w1, x1, y1, z1) := q1 in
  let '(w2, x2, y2, z2) := q2 in
  (w1 == w2 /\ x1 == x2 /\ y1 == y2 /\ z1 == z2)%Q.


(** The criteria's bodies all exist in a state of [n] bodies. *)
Definition bodies_below {T : Type} (n : nat) (criteria : list (criterion T)) : bool :=
  forallb (fun c => crit_body c <? n) criteria.

(** The sum of the criteria's distances, criterion by criterion, for a
    state in which body [b] is [bodies b]; a distance that raises ends
    it. *)
Definition total_distance {T A : Type} {N : PyNum T} {P : PyPow T}
    (bodies : nat -> tuple4 T A) (criteria : list (criterion T)) : result T :=
  sum_from (num_of_int 0)
    (map (fun c => dist (bodies (crit_body c)) (crit_target c)) criteria).

(** No square raises. *)
Definition squares_return {T : Type} (P : PyPow T) : Prop :=
  forall x : T, exists y : T, num_sq x = Ok y.

(** The body [b] of a state, as [isSatisfied_Py] assembles it; the zeros
    only show outside the layout. *)
Definition body_of {T : Type} {N : PyNum T} (state : State T) (b : nat)
  : tuple4 T (SubState T) :=
  let o := num_of_int 0 in
  let blk i := nth i state (RealVector (o, o, o)) in
  Tuple4
    (match blk (4 * b + 0) with RealVector p => p | SO3 _ => (o, o, o) end)
    (blk (4 * b + 1))
    (blk (4 * b + 2))
    (match blk (4 * b + 3) with SO3 q => q | RealVector _ => (o, o, o, o) end).

(** The value of the loop variable after the loop. *)
Fixpoint last_crit {T : Type} (criteria : list (criterion T))
    (crit : option (criterion T)) : option (criterion T) :=
  match criteria with
  | [] => crit
  | c :: rest => last_crit rest (Some c)
  end.

(** One criterion: body 0 at the origin, not rotated. *)
Definition one_criterion {T : Type} {N : PyNum T} : list (criterion T) :=
  let o := num_of_int 0 in
  [Criterion 0 (BodyTuple (o, o, o) (o, o, o) (o, o, o) (num_of_int 1, o, o, o))].

(** A state of one body, at rest at [(x, 0, 0)] and not rotated. *)
Definition state_off_by {T : Type} {N : PyNum T} (x : T) : State T :=
  let o := num_of_int 0 in
  [RealVector (x, o, o); RealVector (o, o, o); RealVector (o, o, o);
   SO3 (num_of_int 1, o, o, o)].

(** *** Channels *)

(** The requests [applyControl] makes for the channels [cs] when the
    running index stands at [i]: one a channel, in the order of the
    description, each with its slice of the control. *)
Fixpoint requests {T : Type} {B : PyBuiltins T} (cs : list controller)
    (con' : list T) (i : nat) : list string :=
  match cs with
  | [] => []
  | c :: rest => request c con' i :: requests rest con' (i + ctl_dim c)
  end.

(** Where the slice of channel [k] starts: the dimensions of the channels
    before it, added up. *)
Definition offset (cs : list controller) (k : nat) : nat :=
  list_sum (map ctl_dim (firstn k cs)).

(** No coming [sendall] on the socket fails. *)
Definition sends_ok (s : Socket) : bool := forallb (fun b => b) (send_script s).

(** The next [sendall] on the socket succeeds. *)
Definition next_send_ok (s : Socket) : bool :=
  match send_script s with
  | false :: _ => false
  | _ => true
  end.

(** No component is a NaN: each equals itself. *)
Definition self_equal {T : Type} {N : PyNum T} (c : list T) : bool :=
  forallb (fun x => num_eqb x x) c.

(** The peer answers the next [k] calls: the sends succeed and the
    replies arrive and decode. *)
Fixpoint serves {T : Type} {N : PyNum T} {B : PyBuiltins T}
    (sends : list bool) (replies : list (option string)) (k : nat) : bool :=
  match k with
  | O => true
  | S k' =>
      match sends, replies with
      | false :: _, _ => false
      | _, Some reply :: replies' =>
          is_ok (eval_reply reply) && serves (tl sends) replies' k'
      | _, _ => false
      end
  end.

(** *** Reading a state *)

(** The places [readState] reads in an entry of the reply: [obj[j][k]]
    for the three 3-vectors, then for the four numbers of [obj[3]]. *)
Definition positions : list (nat * nat) :=
  flat_map (fun j => map (fun k => (j, k)) (seq 0 3)) (seq 0 3)
  ++ map (fun k => (3, k)) (seq 0 4).

(** An entry that has a number at each of these places; it may have more
    items than those. *)
Definition entry_ok {T : Type} (obj : pyval T) : bool :=
  forallb (fun jk => is_ok (component obj (fst jk) (snd jk))) positions.

(** The number read at a place that has one. *)
Definition value_or_zero {T : Type} {N : PyNum T} (r : result T) : T :=
  match r with
  | Ok x => x
  | Raise _ => num_of_int 0
  end.

(** The four blocks an entry fills. *)
Definition entry_blocks {T : Type} {N : PyNum T} (obj : pyval T)
  : list (SubState T) :=
  let g j k := value_or_zero (component obj j k) in
  [RealVector (g 0 0, g 0 1, g 0 2);
   RealVector (g 1 0, g 1 1, g 1 2);
   RealVector (g 2 0, g 2 1, g 2 2);
   SO3 (g 3 0, g 3 1, g 3 2, g 3 3)].

(** The errors an index out of range or a number in the place of a
    sequence give. *)
Definition index_or_type_error (e : exn) : bool :=
  match e with
  | IndexError | TypeError => true
  | _ => false
  end.

(** A statement that works past a prefix [pre] as [s] works without it. *)
Definition shifted {T : Type} (pre : State T)
    (s' s : State T -> State T * result unit) : Prop :=
  forall st, s' (pre ++ st) = let (st', r) := s st in (pre ++ st', r).

(** *** Writing a state *)

(** The numbers of a state, block by block. *)
Definition block_nums {T : Type} (b : SubState T) : list T :=
  match b with
  | RealVector (a, b, c) => [a; b; c]
  | SO3 (w, x, y, z) => [w; x; y; z]
  end.

Definition state_nums {T : Type} (state : State T) : list T :=
  flat_map block_nums state.

(** The blocks of a list of bodies. *)
Definition blocks_of {T : Type} (l : list (body_tuple T)) : State T :=
  flat_map (fun bt => [RealVector (bt_pos bt); RealVector (bt_lin bt);
                       RealVector (bt_ang bt); SO3 (bt_quat bt)]) l.

(** Neither a NaN nor an infinity. *)
Definition is_finite (f : float) : bool :=
  match classify f with
  | NaN | PInf | NInf => false
  | _ => true
  end.

(** What Python promises of [repr] on a finite double: the text is a
    number literal, and the literal denotes that double. *)
Definition repr_round_trips (repr_finite : float -> string) (f : float) : Prop :=
  all_chars literal_char (repr_finite f) = true
  /\ float_literal (repr_finite f) = Some f.

(** The text of a double after ['nan'] has been replaced, and after
    ['inf'] has been replaced too. *)
Definition repr_nan_replaced (repr_finite : float -> string) (f : float) : string :=
  match classify f with
  | NaN => float_nan_expr
  | _ => float_repr repr_finite f
  end.

Definition repr_replaced (repr_finite : float -> string) (f : float) : string :=
  match classify f with
  | NaN => float_nan_expr
  | PInf => float_inf_expr
  | NInf => ("-" ++ float_inf_expr)%string
  | _ => repr_finite f
  end.

(** [old] is replaced by [new] in the piece [p] of a text, giving [p'],
    whatever follows the piece. *)
Definition rewrites (old new p p' : string) : Prop :=
  forall rest,
    str_replace old new (p ++ rest) = (p' ++ str_replace old new rest)%string.

(** The character [c] does not occur in [s]. *)
Definition lacks (c : ascii) (s : string) : bool :=
  all_chars (fun x => negb (Ascii.eqb x c)) s.

(** What may follow an item of a display: nothing, a separator or a
    closing bracket. *)
Definition ends_item (rest : string) : bool :=
  match rest with
  | EmptyString => true
  | String c _ => Ascii.eqb c "," || Ascii.eqb c ")" || Ascii.eqb c "]"
  end.

(** What an item of a display starts with: not a closing bracket. *)
Definition starts_item (t : string) : bool :=
  match t with
  | EmptyString => false
  | String c _ => negb (Ascii.eqb c ")") && negb (Ascii.eqb c "]")
  end.

(** The text [t] is decoded to [v] wherever it stands as an item, given
    fuel beyond its length. *)
Definition parses (t : string) (v : pyval float) : Prop :=
  starts_item t = true
  /\ forall fuel rest,
       String.length t < fuel -> ends_item rest = true ->
       parse_value fuel (t ++ rest) = Some (v, rest).

(** *** Further vocabulary *)

(** The slices [applyControl] cuts for the channels [cs], the running
    index standing at [i]. *)
Fixpoint slices {T : Type} (cs : list controller) (c : list T) (i : nat)
  : list (list T) :=
  match cs with
  | [] => []
  | ctl :: rest => slice c i (i + ctl_dim ctl) :: slices rest c (i + ctl_dim ctl)
  end.

(** The request of a channel for a slice of the control. *)
Definition request_for {T : Type} {B : PyBuiltins T} (ctl : controller)
    (sl : list T) : string :=
  "id " ++ ctl_name ctl ++ " " ++ ctl_cmd ctl ++ " "
  ++ repr_list (map py_repr sl) ++ newline.

(** The planner applying one control after the other, as long as no call
    raises. *)
Fixpoint apply_all {T : Type} {N : PyNum T} {B : PyBuiltins T}
    (env : MyEnvironment T) (controls : list (list T))
  : MyEnvironment T * result unit :=
  match controls with
  | [] => (env, Ok tt)
  | c :: rest =>
      match applyControl env c with
      | (env', Ok _) => apply_all env' rest
      | (env', Raise e) => (env', Raise e)
      end
  end.

(** The controls of a sequence that differ from the one in force before
    them, [cache] being in force at the start. *)
Fixpoint changes {T : Type} {N : PyNum T} (cache : list T)
    (controls : list (list T)) : list (list T) :=
  match controls with
  | [] => []
  | c :: rest =>
      if list_eqb cache c then changes cache rest else c :: changes c rest
  end.

(** The next [call] on a socket with these scripts raises: the send
    fails, or the reply fails to arrive or to decode. *)
Definition call_fails {T : Type} {B : PyBuiltins T}
    (sends : list bool) (replies : list (option string)) : bool :=
  match sends with
  | false :: _ => true
  | _ =>
      match replies with
      | Some reply :: _ => negb (is_ok (eval_reply reply))
      | _ => true
      end
  end.

(** Positions equal in exact arithmetic. *)
Definition pos_eq (p1 p2 : vec3 Q) : Prop :=
  let '(a1, b1, c1) := p1 in
  let '(a2, b2, c2) := p2 in
  (a1 == a2 /\ b1 == b2 /\ c1 == c2)%Q.

(** *** An environment to run the adapter in *)

(** Binary64 numbers printed by [repr_exact], two channels taking two and
    one control values, one rigid body, and the cache as the constructor
    leaves it. *)
#[export] Instance demo_builtins : PyBuiltins float := float_builtins repr_exact.

(** Squares taken by a C library that rounds them correctly. *)
#[export] Instance demo_pow : PyPow float := float_pow rounded_sq.

Definition idle_socket : Socket :=
  {| send_script := []; recv_script := []; trace := [] |}.

Definition demo_env : MyEnvironment float :=
  {| sockS := idle_socket;
     sockC := idle_socket;
     simRunning := true;
     cdesc_dim := 3;
     cdesc_controllers :=
       [ {| ctl_name := "robot.motion"; ctl_cmd := "set_speed"; ctl_dim := 2 |};
         {| ctl_name := "robot.arm"; ctl_cmd := "set_angle"; ctl_dim := 1 |} ];
     con := [0; 0; 0]%float;
     rigidBodies_ := 1 |}.

(** The same environment with a peer that behaves as the scripts say:
    [sends] on the command socket, [replies] on the state socket. *)
Definition demo_env_with (sends : list bool) (replies : list (option string))
  : MyEnvironment float :=
  set_sockC
    (set_sockS demo_env
       {| send_script := []; recv_script := replies; trace := [] |})
    {| send_script := sends; recv_script := []; trace := [] |}.

(** A state of one body: at [(1, 2, 3)], at rest, not rotated. *)
Definition demo_state : State float :=
  [RealVector (1, 2, 3)%float; RealVector (0, 0, 0)%float;
   RealVector (0, 0, 0)%float; SO3 (1, 0, 0, 0)%float].

Unset Implicit Arguments.

(* ================================================================= *)
(** ** The goal distance *)

Section GoalDistance.
Open Scope Q_scope.


Lemma Qsq_nonneg (x : Q) : 0 <= x ^ 2.
Proof. nra. Qed.

(** Cauchy-Schwarz in four dimensions, through Lagrange's identity. *)
Lemma dot4_bound (w1 x1 y1 z1 w2 x2 y2 z2 : Q) :
  w1 * w1 + x1 * x1 + y1 * y1 + z1 * z1 == 1 ->
  w2 * w2 + x2 * x2 + y2 * y2 + z2 * z2 == 1 ->
  (w1 * w2 + x1 * x2 + y1 * y2 + z1 * z2)
  * (w1 * w2 + x1 * x2 + y1 * y2 + z1 * z2) <= 1.
Proof.
  intros H1 H2.
  assert (L : (w1 * w1 + x1 * x1 + y1 * y1 + z1 * z1)
              * (w2 * w2 + x2 * x2 + y2 * y2 + z2 * z2)
              - (w1 * w2 + x1 * x2 + y1 * y2 + z1 * z2)
                * (w1 * w2 + x1 * x2 + y1 * y2 + z1 * z2)
              == (w1 * x2 - x1 * w2) ^ 2 + (w1 * y2 - y1 * w2) ^ 2
                 + (w1 * z2 - z1 * w2) ^ 2 + (x1 * y2 - y1 * x2) ^ 2
                 + (x1 * z2 - z1 * x2) ^ 2 + (y1 * z2 - z1 * y2) ^ 2) by ring.
  rewrite H1, H2 in L.
  pose proof (Qsq_nonneg (w1 * x2 - x1 * w2)).
  pose proof (Qsq_nonneg (w1 * y2 - y1 * w2)).
  pose proof (Qsq_nonneg (w1 * z2 - z1 * w2)).
  pose proof (Qsq_nonneg (x1 * y2 - y1 * x2)).
  pose proof (Qsq_nonneg (x1 * z2 - z1 * x2)).
  pose proof (Qsq_nonneg (y1 * z2 - z1 * y2)).
  lra.
Qed.



End GoalDistance.


(* ================================================================= *)
(** ** Goal satisfaction *)

Section GoalSatisfaction.
Context {T : Type} {N : PyNum T} {P : PyPow T}.

(** The four blocks of body [b] in a state of the layout. *)
Lemma layout_blocks (n : nat) : forall (state : State T) (b : nat),
  layout n state = true -> b < n ->
  exists p l a q,
    nth_error state (4 * b + 0) = Some (RealVector p)
    /\ nth_error state (4 * b + 1) = Some (RealVector l)
    /\ nth_error state (4 * b + 2) = Some (RealVector a)
    /\ nth_error state (4 * b + 3) = Some (SO3 q).
Proof.
  induction n as [|n IH]; intros state b L Hb; [lia|].
  destruct state as [|[p|] [|[l|] [|[a|] [|[|q] rest]]]]; try discriminate L.
  simpl in L.
  destruct b as [|b].
  - exists p, l, a, q. simpl. auto.
  - destruct (IH rest b L ltac:(lia)) as (p' & l' & a' & q' & H0 & H1 & H2 & H3).
    exists p', l', a', q'.
    replace (4 * S b) with (S (S (S (S (4 * b))))) by lia.
    simpl. auto.
Qed.


Lemma crit_step_layout (n : nat) (state : State T) (d : T) (c : criterion T) :
  layout n state = true -> crit_body c < n ->
  crit_step state d c
  = (x <- dist (body_of state (crit_body c)) (crit_target c) ;;
     Ok (num_add d x)).
Proof.
  intros L Hb.
  destruct (layout_blocks _ _ _ L Hb) as (p & l & a & q & H0 & H1 & H2 & H3).
  unfold crit_step, state_at, body_of.
  rewrite H0, H1, H2, H3. simpl.
  rewrite (nth_error_nth _ _ _ H0), (nth_error_nth _ _ _ H1),
    (nth_error_nth _ _ _ H2), (nth_error_nth _ _ _ H3).
  reflexivity.
Qed.


Lemma last_crit_bound (criteria : list (criterion T)) :
  forall c, exists c', last_crit criteria (Some c) = Some c'.
Proof.
  induction criteria as [|c0 rest IH]; intro c; simpl; eauto.
Qed.

Lemma crit_loop_layout (n : nat) (state : State T) :
  layout n state = true ->
  forall (criteria : list (criterion T)) (d : T) (last : option (criterion T)),
    forallb (fun c => crit_body c <? n) criteria = true ->
    crit_loop state criteria d last =
      (d' <- sum_from d
               (map (fun c => dist (body_of state (crit_body c)) (crit_target c))
                    criteria) ;;
       Ok (d', last_crit criteria last)).
Proof.
  intros L criteria.
  induction criteria as [|c rest IH]; intros d last Hb; simpl in *.
  - reflexivity.
  - apply andb_true_iff in Hb. destruct Hb as [Hc Hrest].
    apply Nat.ltb_lt in Hc.
    rewrite (crit_step_layout _ _ _ _ L Hc).
    destruct (dist (body_of state (crit_body c)) (crit_target c)) as [x|e];
      simpl; [|reflexivity].
    rewrite (IH _ _ Hrest). reflexivity.
Qed.

(** What [isSatisfied_Py] computes on a state of the layout: the distances
    summed over all the criteria, compared with [len(crit) * 0.1] for the
    last criterion [crit], that is with [2 * 0.1]; a distance that raises
    ends the call. *)
Lemma isSatisfied_Py_computes (n : nat) (state : State T)
    (c : criterion T) (rest : list (criterion T)) :
  layout n state = true ->
  bodies_below n (c :: rest) = true ->
  isSatisfied_Py (c :: rest) state =
    (d <- total_distance (fun b => body_of state b) (c :: rest) ;;
     Ok (d, negb (num_gtb d (num_mul (num_of_int 2) num_tenth)))).
Proof.
  intros L Hb. unfold isSatisfied_Py, bodies_below, total_distance in *.
  rewrite (crit_loop_layout _ _ L _ _ _ Hb).
  destruct (sum_from _ _) as [d|e]; [|reflexivity].
  cbn [bind fst snd].
  simpl last_crit.
  destruct (last_crit_bound rest c) as [c' E].
  rewrite E. unfold len_crit.
  destruct (num_gtb _ _); reflexivity.
Qed.

(** Whatever [dist] raises, a square has raised. *)
Lemma dist_raises {A C : Type} (s1 : tuple4 T A) (s2 : tuple4 T C) (e : exn) :
  dist s1 s2 = Raise e -> exists x, num_sq x = Raise e.
Proof.
  destruct s1 as [[[a1 b1] c1] l1 g1 [[[w1 x1] y1] z1]].
  destruct s2 as [[[a2 b2] c2] l2 g2 [[[w2 x2] y2] z2]].
  unfold dist, pos_term, orient_term, quat_dot, py_sum. simpl.
  repeat match goal with
         | |- context [bind (num_sq ?x) _] =>
             let E := fresh "E" in
             destruct (num_sq x) eqn:E; simpl;
             [|intro H; inversion H; subst; eexists; exact E]
         end.
  intro H. discriminate H.
Qed.

Lemma sum_from_raises {A : Type} (bodies : nat -> tuple4 T A)
    (criteria : list (criterion T)) :
  forall (d : T) (e : exn),
    sum_from d (map (fun c => dist (bodies (crit_body c)) (crit_target c))
                    criteria) = Raise e ->
    exists x, num_sq x = Raise e.
Proof.
  induction criteria as [|c rest IH]; intros d e H; simpl in H;
    [discriminate H|].
  destruct (dist (bodies (crit_body c)) (crit_target c)) as [x|e'] eqn:E;
    simpl in H.
  - exact (IH _ _ H).
  - inversion H; subst. exact (dist_raises _ _ _ E).
Qed.

(** C10.  With no criterion the loop variable [crit] is never bound and
    reading it raises; a call that returns had a criterion; and with a
    criterion, bodies that exist and a state of the layout, the call
    returns unless a square raises, whose error it then hands on. *)
Theorem isSatisfied_Py_needs_a_criterion :
  (forall state : State T, isSatisfied_Py [] state = Raise UnboundLocalError)
  /\ (forall (criteria : list (criterion T)) (state : State T) (r : T * bool),
        isSatisfied_Py criteria state = Ok r -> criteria <> [])
  /\ (forall (n : nat) (criteria : list (criterion T)) (state : State T),
        criteria <> [] -> layout n state = true ->
        bodies_below n criteria = true ->
        (exists r, isSatisfied_Py criteria state = Ok r)
        \/ (exists e x, isSatisfied_Py criteria state = Raise e
                        /\ num_sq x = Raise e)).
Proof.
  split; [reflexivity|]. split.
  - intros criteria state r H ->. discriminate H.
  - intros n [|c rest] state Hne L Hb; [contradiction|].
    rewrite (isSatisfied_Py_computes _ _ _ _ L Hb).
    unfold total_distance.
    destruct (sum_from _ _) as [d|e] eqn:E; simpl.
    + left. eexists. reflexivity.
    + right. destruct (sum_from_raises _ _ _ _ E) as [x Hx].
      exists e, x. split; [reflexivity | exact Hx].
Qed.

End GoalSatisfaction.


(** The two examples of the satisfaction threshold, with two criteria on
    one body: at distance [0.04] each the goal is satisfied, at distance
    [0.2] each it is not. *)
Example isSatisfied_Py_two_criteria :
  let target : body_tuple Q :=
    BodyTuple (0, 0, 0)%Q (0, 0, 0)%Q (0, 0, 0)%Q (1, 0, 0, 0)%Q in
  let criteria := [Criterion 0 target; Criterion 0 target] in
  (exists d, isSatisfied_Py criteria (state_off_by (2 # 10)%Q) = Ok (d, true)
             /\ (d == 8 # 100)%Q)
  /\ (exists d,
        isSatisfied_Py criteria
          [RealVector (4 # 10, 2 # 10, 0)%Q; RealVector (0, 0, 0)%Q;
           RealVector (0, 0, 0)%Q; SO3 (1, 0, 0, 0)%Q] = Ok (d, false)
        /\ (d == 4 # 10)%Q).
Proof.
  split; eexists; (split; [vm_compute; reflexivity | reflexivity]).
Qed.

(** C1.  The code at one criterion, in exact and in binary64 arithmetic:
    the distance is [0.16], above [0.1 * 1], and the call returns [True]. *)
Theorem isSatisfied_Py_single_criterion_threshold :
  (exists d : Q,
      isSatisfied_Py one_criterion (state_off_by (4 # 10)%Q) = Ok (d, true)
      /\ (d == 16 # 100)%Q
      /\ ((1 # 10) * inject_Z (Z.of_nat (List.length (@one_criterion Q _))) < d)%Q)
  /\ isSatisfied_Py one_criterion (state_off_by 0x1.999999999999ap-2%float)
     = Ok (0x1.47ae147ae147cp-3%float, true)
  /\ PrimFloat.ltb (num_tenth * 1)%float 0x1.47ae147ae147cp-3%float = true.
Proof.
  split.
  - eexists. split; [vm_compute; reflexivity|]. split; reflexivity.
  - split; vm_compute; reflexivity.
Qed.

(* ================================================================= *)
(** ** The RPC client *)

Lemma send_attempts_app (tr1 tr2 : list sock_event) :
  send_attempts (tr1 ++ tr2) = send_attempts tr1 ++ send_attempts tr2.
Proof.
  induction tr1 as [|[m|m|d|] tr1 IH]; simpl; rewrite ?IH; reflexivity.
Qed.

Lemma recv_attempts_app (tr1 tr2 : list sock_event) :
  recv_attempts (tr1 ++ tr2) = recv_attempts tr1 + recv_attempts tr2.
Proof.
  induction tr1 as [|[m|m|d|] tr1 IH]; simpl; rewrite ?IH; reflexivity.
Qed.

Lemma sent_messages_app (tr1 tr2 : list sock_event) :
  sent_messages (tr1 ++ tr2) = sent_messages tr1 ++ sent_messages tr2.
Proof.
  induction tr1 as [|[m|m|d|] tr1 IH]; simpl; rewrite ?IH; reflexivity.
Qed.

Section RpcClient.
Context {T : Type} {N : PyNum T} {B : PyBuiltins T}.

(** However a call ends, it has made one [sendall], of the command. *)
Lemma call_sends_once (env : MyEnvironment T) (cmd : string) :
  send_attempts (trace (sockS (fst (call env cmd))))
  = send_attempts (trace (sockS env)) ++ [cmd].
Proof.
  unfold call, sendall, recv.
  destruct (send_script (sockS env)) as [|[|] sends];
    destruct (recv_script (sockS env)) as [|[reply|] replies]; simpl;
    try destruct (eval_reply reply) as [v|e]; simpl;
    rewrite ?send_attempts_app; simpl; rewrite ?app_nil_r; reflexivity.
Qed.

(** C6.  A call that ends in an error, whichever of [sendall], [recv] and
    [eval] raised it, leaves [simRunning] false and hands the error on; a
    call that returns leaves [simRunning] as it was.  Either way the
    command was sent once and at most one reply was read.  A failed send,
    a failed receive, a closed connection and a reply that does not
    decode are such errors. *)
Theorem call_marks_failure (env : MyEnvironment T) (cmd : string) :
  let (env', r) := call env cmd in
  match r with
  | Raise _ => simRunning env' = false
  | Ok _ => simRunning env' = simRunning env
  end
  /\ send_attempts (trace (sockS env'))
     = send_attempts (trace (sockS env)) ++ [cmd]
  /\ recv_attempts (trace (sockS env')) <= S (recv_attempts (trace (sockS env)))
  /\ (next_send_ok (sockS env) = false -> r = Raise SocketError)
  /\ (next_send_ok (sockS env) = true ->
      match recv_script (sockS env) with
      | None :: _ => r = Raise SocketError
      | [] => r = Raise SyntaxError
      | Some reply :: _ =>
          match eval_reply reply with
          | Raise e => r = Raise e
          | Ok v => r = Ok v
          end
      end).
Proof.
  unfold call, sendall, recv, next_send_ok.
  destruct (send_script (sockS env)) as [|[|] sends];
    destruct (recv_script (sockS env)) as [|[reply|] replies]; simpl;
    try destruct (eval_reply reply) as [v|e]; simpl;
    rewrite ?send_attempts_app, ?recv_attempts_app; simpl;
    rewrite ?app_nil_r;
    repeat split; auto; try lia; try discriminate.
Qed.

End RpcClient.

(* ================================================================= *)
(** ** The control applier *)

Section ControlApplier.
Context {T : Type} {N : PyNum T} {B : PyBuiltins T}.

Lemma list_eqb_refl (c : list T) : self_equal c = true -> list_eqb c c = true.
Proof.
  unfold self_equal.
  induction c as [|x c IH]; simpl; [reflexivity|].
  intro H. apply andb_true_iff in H. destruct H as [Hx Hc].
  rewrite Hx, (IH Hc). reflexivity.
Qed.

Lemma list_eqb_length (c1 c2 : list T) :
  list_eqb c1 c2 = true -> List.length c1 = List.length c2.
Proof.
  revert c2. induction c1 as [|x c1 IH]; intros [|y c2] H; simpl in *;
    try discriminate; [reflexivity|].
  apply andb_true_iff in H. destruct H as [_ H]. rewrite (IH _ H). reflexivity.
Qed.

(** The requests are one a channel, and the request of channel [k] carries
    the slice that starts where the slices of the channels before it end. *)
Lemma requests_nth (cs : list controller) :
  forall (c : list T) (i k : nat) (ctl : controller),
    nth_error cs k = Some ctl ->
    nth_error (requests cs c i) k = Some (request ctl c (i + offset cs k)).
Proof.
  induction cs as [|c0 cs IH]; intros c i k ctl H; destruct k as [|k];
    simpl in *; try discriminate H.
  - inversion H; subst. unfold offset. simpl. rewrite Nat.add_0_r. reflexivity.
  - rewrite (IH c (i + ctl_dim c0) k ctl H). unfold offset. simpl.
    rewrite Nat.add_assoc. reflexivity.
Qed.

Lemma requests_length (cs : list controller) (c : list T) (i : nat) :
  List.length (requests cs c i) = List.length cs.
Proof.
  revert i. induction cs as [|c0 cs IH]; intro i; simpl; [reflexivity|].
  rewrite IH. reflexivity.
Qed.

(** The loop over the channels never touches the cache, the description
    or the state socket; what it sends is a prefix of the requests, all of
    them when it returns. *)
Lemma send_controls_frame (cs : list controller) :
  forall (env : MyEnvironment T) (c : list T) (i : nat),
    let (env', r) := send_controls env cs c i in
    con env' = con env
    /\ cdesc_controllers env' = cdesc_controllers env
    /\ cdesc_dim env' = cdesc_dim env
    /\ sockS env' = sockS env
    /\ simRunning env' = simRunning env
    /\ rigidBodies_ env' = rigidBodies_ env
    /\ recv_script (sockC env') = recv_script (sockC env)
    /\ match r with
       | Ok _ =>
           trace (sockC env') = trace (sockC env) ++ map Sent (requests cs c i)
       | Raise e =>
           e = SocketError
           /\ exists k, k < List.length cs
              /\ trace (sockC env')
                 = trace (sockC env) ++ map Sent (firstn k (requests cs c i))
                   ++ [SendFailed (nth k (requests cs c i) "")]
       end.
Proof.
  induction cs as [|ctl cs IH]; intros env c i; simpl.
  - rewrite app_nil_r. repeat split; reflexivity.
  - unfold sendall.
    destruct (send_script (sockC env)) as [|[|] sends] eqn:E; simpl.
    + specialize (IH (set_sockC env
                        {| send_script := []; recv_script := recv_script (sockC env);
                           trace := trace (sockC env) ++ [Sent (request ctl c i)] |})
                     c (i + ctl_dim ctl)).
      destruct (send_controls _ cs c (i + ctl_dim ctl)) as [env' r].
      simpl in IH.
      destruct IH as (H1 & H2 & H3 & H4 & H5 & H6 & H7 & H8).
      repeat split; auto.
      destruct r as [u|e].
      * rewrite H8, <- app_assoc. reflexivity.
      * destruct H8 as (He & k & Hk & H8). split; [exact He|].
        exists (S k). split; [lia|]. rewrite H8, <- app_assoc. reflexivity.
    + specialize (IH (set_sockC env
                        {| send_script := sends; recv_script := recv_script (sockC env);
                           trace := trace (sockC env) ++ [Sent (request ctl c i)] |})
                     c (i + ctl_dim ctl)).
      destruct (send_controls _ cs c (i + ctl_dim ctl)) as [env' r].
      simpl in IH.
      destruct IH as (H1 & H2 & H3 & H4 & H5 & H6 & H7 & H8).
      repeat split; auto.
      destruct r as [u|e].
      * rewrite H8, <- app_assoc. reflexivity.
      * destruct H8 as (He & k & Hk & H8). split; [exact He|].
        exists (S k). split; [lia|]. rewrite H8, <- app_assoc. reflexivity.
    + repeat split; auto. exists 0. split; [lia|]. reflexivity.
Qed.

(** With a peer that takes every message the loop returns. *)
Lemma send_controls_ok (cs : list controller) :
  forall (env : MyEnvironment T) (c : list T) (i : nat),
    sends_ok (sockC env) = true ->
    snd (send_controls env cs c i) = Ok tt.
Proof.
  unfold sends_ok.
  induction cs as [|ctl cs IH]; intros env c i H; simpl; [reflexivity|].
  unfold sendall.
  destruct (send_script (sockC env)) as [|[|] sends] eqn:E; simpl in *;
    try discriminate H; apply IH; simpl; auto.
Qed.

(** C2, as the code has it.  A control that differs from the cache and has
    no NaN among its components, applied twice in a row to a peer that
    takes every message: the first call stores it in the cache and sends
    one request a channel, in the order of the description and each with
    its slice; the second call sends nothing and changes nothing. *)
Theorem applyControl_twice (env : MyEnvironment T) (c : list T) :
  list_eqb (con env) c = false ->
  self_equal c = true ->
  sends_ok (sockC env) = true ->
  exists env1,
    applyControl env c = (env1, Ok tt)
    /\ con env1 = c
    /\ trace (sockC env1)
       = trace (sockC env) ++ map Sent (requests (cdesc_controllers env) c 0)
    /\ applyControl env1 c = (env1, Ok tt).
Proof.
  intros Hne Hself Hok.
  unfold applyControl at 1. rewrite Hne. simpl.
  pose proof (send_controls_frame (cdesc_controllers env) (set_con env c) c 0) as F.
  pose proof (send_controls_ok (cdesc_controllers env) (set_con env c) c 0 Hok) as R.
  destruct (send_controls (set_con env c) (cdesc_controllers env) c 0)
    as [env1 r].
  simpl in F, R. subst r.
  destruct F as (Hcon & _ & _ & _ & _ & _ & _ & Htrace).
  exists env1. repeat split; auto.
  unfold applyControl. rewrite Hcon, (list_eqb_refl c Hself). reflexivity.
Qed.

(** C4, as the code has it.  There is no check of the length: a control
    whose length is not the dimension of the control space, which is the
    length of the cache, differs from the cache; it is stored and one
    request a channel is sent, the slices ending where the control does. *)
Theorem applyControl_wrong_length (env : MyEnvironment T) (c : list T) :
  List.length (con env) = cdesc_dim env ->
  List.length c <> cdesc_dim env ->
  sends_ok (sockC env) = true ->
  exists env1,
    applyControl env c = (env1, Ok tt)
    /\ con env1 = c
    /\ trace (sockC env1)
       = trace (sockC env) ++ map Sent (requests (cdesc_controllers env) c 0).
Proof.
  intros Hlen Hc Hok.
  assert (Hne : list_eqb (con env) c = false).
  { destruct (list_eqb (con env) c) eqn:E; [|reflexivity].
    apply list_eqb_length in E. congruence. }
  unfold applyControl. rewrite Hne. simpl.
  pose proof (send_controls_frame (cdesc_controllers env) (set_con env c) c 0) as F.
  pose proof (send_controls_ok (cdesc_controllers env) (set_con env c) c 0 Hok) as R.
  destruct (send_controls (set_con env c) (cdesc_controllers env) c 0)
    as [env1 r].
  simpl in F, R. subst r.
  destruct F as (Hcon & _ & _ & _ & _ & _ & _ & Htrace).
  exists env1. repeat split; auto.
Qed.

(** C5, as the code has it.  The cache takes the new control before the
    first request is sent: after a call with a control that differs from
    the cache, the cache is that control however the call ended.  When the
    call returned, every channel's request was sent; when a send failed,
    the requests before the failing one were. *)
Theorem applyControl_cache_first (env : MyEnvironment T) (c : list T) :
  list_eqb (con env) c = false ->
  let (env', r) := applyControl env c in
  con env' = c
  /\ match r with
     | Ok _ =>
         trace (sockC env')
         = trace (sockC env) ++ map Sent (requests (cdesc_controllers env) c 0)
     | Raise e =>
         e = SocketError
         /\ exists k, k < List.length (cdesc_controllers env)
            /\ trace (sockC env')
               = trace (sockC env)
                 ++ map Sent (firstn k (requests (cdesc_controllers env) c 0))
                 ++ [SendFailed (nth k (requests (cdesc_controllers env) c 0) "")]
     end.
Proof.
  intro Hne. unfold applyControl. rewrite Hne. simpl.
  pose proof (send_controls_frame (cdesc_controllers env) (set_con env c) c 0) as F.
  destruct (send_controls (set_con env c) (cdesc_controllers env) c 0)
    as [env' r].
  simpl in F.
  destruct F as (Hcon & _ & _ & _ & _ & _ & _ & Htrace).
  split; assumption.
Qed.

End ControlApplier.

(** The control [[0.5, -1.0, 2.0]] applied twice to the demo environment. *)
Lemma applyControl_twice_witness :
  exists env1,
    applyControl demo_env [0.5; -1; 2]%float = (env1, Ok tt)
    /\ con env1 = [0.5; -1; 2]%float
    /\ trace (sockC env1)
       = [Sent ("id robot.motion set_speed [0.5, -1.0]" ++ newline)%string;
          Sent ("id robot.arm set_angle [2.0]" ++ newline)%string]
    /\ applyControl env1 [0.5; -1; 2]%float = (env1, Ok tt).
Proof.
  exact (applyControl_twice demo_env [0.5; -1; 2]%float
           eq_refl eq_refl eq_refl).
Defined.

(** C2 fails on the code at a control equal to the cache, which the first
    call does not send although there are channels, and at a control with
    a NaN, which the second call sends again. *)
Lemma applyControl_twice_counterexample :
  cdesc_controllers demo_env <> []
  /\ applyControl demo_env [0; 0; 0]%float = (demo_env, Ok tt)
  /\ (let env1 := fst (applyControl demo_env [nan; 0; 0]%float) in
      let env2 := fst (applyControl env1 [nan; 0; 0]%float) in
      sent_messages (trace (sockC env1))
      = [("id robot.motion set_speed [nan, 0.0]" ++ newline)%string;
         ("id robot.arm set_angle [0.0]" ++ newline)%string]
      /\ sent_messages (trace (sockC env2))
         = sent_messages (trace (sockC env1)) ++ sent_messages (trace (sockC env1))).
Proof.
  split; [discriminate|]. split; [reflexivity|]. split; vm_compute; reflexivity.
Qed.

(** A control of length one in a control space of dimension three. *)
Lemma applyControl_wrong_length_witness :
  exists env1,
    applyControl demo_env [0.5]%float = (env1, Ok tt)
    /\ con env1 = [0.5]%float
    /\ trace (sockC env1)
       = [Sent ("id robot.motion set_speed [0.5]" ++ newline)%string;
          Sent ("id robot.arm set_angle []" ++ newline)%string].
Proof.
  refine (applyControl_wrong_length demo_env [0.5]%float
            eq_refl _ eq_refl).
  discriminate.
Defined.

(** C4 fails on the code: the call with a control of the wrong length
    returns, has sent a request on every channel and has changed the
    cache. *)
Lemma applyControl_wrong_length_counterexample :
  List.length [0.5]%float <> cdesc_dim demo_env
  /\ snd (applyControl demo_env [0.5]%float) = Ok tt
  /\ sent_messages
       (trace (sockC (fst (applyControl demo_env [0.5]%float))))
     = [("id robot.motion set_speed [0.5]" ++ newline)%string;
        ("id robot.arm set_angle []" ++ newline)%string]
  /\ con (fst (applyControl demo_env [0.5]%float))
     = [0.5]%float.
Proof.
  split; [discriminate|]. repeat split; vm_compute; reflexivity.
Qed.

(** A peer that takes the first request and fails the second. *)
Lemma applyControl_cache_first_witness :
  let env := demo_env_with [true; false] [] in
  let c := [0.5; -1; 2]%float in
  let (env', r) := applyControl env c in
  con env' = c
  /\ match r with
     | Ok _ =>
         trace (sockC env')
         = trace (sockC env) ++ map Sent (requests (cdesc_controllers env) c 0)
     | Raise e =>
         e = SocketError
         /\ exists k, k < List.length (cdesc_controllers env)
            /\ trace (sockC env')
               = trace (sockC env)
                 ++ map Sent (firstn k (requests (cdesc_controllers env) c 0))
                 ++ [SendFailed (nth k (requests (cdesc_controllers env) c 0) "")]
     end.
Proof.
  exact (applyControl_cache_first
           (demo_env_with [true; false] []) [0.5; -1; 2]%float eq_refl).
Defined.

(** C5 fails on the code: the first send fails, no request went out, and
    the cache holds the new control, not the one dispatched before. *)
Lemma applyControl_cache_first_counterexample :
  let env := demo_env_with [false] [] in
  let (env', r) := applyControl env [0.5; -1; 2]%float in
  r = Raise SocketError
  /\ sent_messages (trace (sockC env')) = []
  /\ con env = [0; 0; 0]%float
  /\ con env' = [0.5; -1; 2]%float.
Proof.
  vm_compute. repeat split; reflexivity.
Qed.

(* ================================================================= *)
(** ** The world stepper *)

Section WorldStepper.
Context {T : Type} {N : PyNum T} {B : PyBuiltins T}.

Lemma tick_loop_serves (k : nat) : forall env : MyEnvironment T,
  serves (send_script (sockS env)) (recv_script (sockS env)) k = true ->
  exists env',
    tick_loop env k = (env', Ok tt)
    /\ send_attempts (trace (sockS env'))
       = send_attempts (trace (sockS env)) ++ repeat "nextTick()" k
    /\ sent_messages (trace (sockS env'))
       = sent_messages (trace (sockS env)) ++ repeat "nextTick()" k
    /\ recv_attempts (trace (sockS env')) = recv_attempts (trace (sockS env)) + k
    /\ simRunning env' = simRunning env.
Proof.
  induction k as [|k IH]; intros env H.
  - exists env. simpl. rewrite !app_nil_r, Nat.add_0_r. auto.
  - simpl in H. simpl tick_loop. unfold call, sendall, recv.
    destruct (send_script (sockS env)) as [|[|] sends] eqn:Es;
      destruct (recv_script (sockS env)) as [|[reply|] replies] eqn:Er;
      try discriminate H; simpl;
      apply andb_true_iff in H; destruct H as [Hev Hrest];
      destruct (eval_reply reply) as [v|e]; try discriminate Hev;
      match goal with
      | |- context [tick_loop ?env1 k] =>
          destruct (IH env1) as (env' & Hrun & Ha & Hs & Hr & Hsim);
          [exact Hrest|]
      end;
      exists env'; rewrite Hrun, Ha, Hs, Hr, Hsim; simpl;
      rewrite !send_attempts_app, !sent_messages_app, !recv_attempts_app; simpl;
      rewrite !app_nil_r, <- !app_assoc; simpl;
      repeat split; auto; lia.
Qed.

Lemma worldStep_serves (env : MyEnvironment T) (dur : T) (n : Z) :
  tick_count dur = Ok n ->
  serves (send_script (sockS env)) (recv_script (sockS env)) (Z.to_nat n) = true ->
  exists env',
    worldStep env dur = (env', Ok tt)
    /\ send_attempts (trace (sockS env'))
       = send_attempts (trace (sockS env)) ++ repeat "nextTick()" (Z.to_nat n)
    /\ sent_messages (trace (sockS env'))
       = sent_messages (trace (sockS env)) ++ repeat "nextTick()" (Z.to_nat n)
    /\ recv_attempts (trace (sockS env'))
       = recv_attempts (trace (sockS env)) + Z.to_nat n
    /\ simRunning env' = simRunning env.
Proof.
  intros Hn Hs. unfold worldStep. rewrite Hn.
  exact (tick_loop_serves _ env Hs).
Qed.

End WorldStepper.

(** C3, as the code has it.  The number of ticks is
    [int(round(dur/(1.0/60)))], nothing when that is negative: with a peer
    that answers them, [worldStep] makes exactly that many [nextTick()]
    calls and returns; when [round] raises (a NaN or an infinity) no call
    is made.  On binary64 the count is [k] for [dur = k/60] with [k] among
    0, 1, 30, 59 and 60, it is 1 for [0.016] and 30 for [0.5]. *)
Theorem worldStep_ticks :
  (forall (T : Type) (N : PyNum T) (B : PyBuiltins T)
          (env : MyEnvironment T) (dur : T) (n : Z),
      tick_count dur = Ok n ->
      serves (send_script (sockS env)) (recv_script (sockS env)) (Z.to_nat n) = true ->
      exists env',
        worldStep env dur = (env', Ok tt)
        /\ send_attempts (trace (sockS env'))
           = send_attempts (trace (sockS env)) ++ repeat "nextTick()" (Z.to_nat n)
        /\ recv_attempts (trace (sockS env'))
           = recv_attempts (trace (sockS env)) + Z.to_nat n)
  /\ (forall (T : Type) (N : PyNum T) (B : PyBuiltins T)
             (env : MyEnvironment T) (dur : T) (e : exn),
         tick_count dur = Raise e -> worldStep env dur = (env, Raise e))
  /\ Forall (fun k => tick_count (float_of_Z k / 60)%float = Ok k)
            [0; 1; 30; 59; 60]%Z
  /\ tick_count 0x1.0624dd2f1a9fcp-6%float = Ok 1%Z
  /\ tick_count 0.5%float = Ok 30%Z.
Proof.
  split.
  { intros T N B env dur n Hn Hs.
    destruct (worldStep_serves env dur n Hn Hs) as (env' & H1 & H2 & _ & H4 & _).
    exists env'. auto. }
  split.
  { intros T N B env dur e He. unfold worldStep. rewrite He. reflexivity. }
  split.
  { repeat constructor. }
  split; vm_compute; reflexivity.
Qed.

(** Half a second against a peer that answers thirty ticks. *)
Lemma worldStep_ticks_witness :
  let env := demo_env_with [] (repeat (Some "[]") 30) in
  exists env',
    worldStep env 0.5%float = (env', Ok tt)
    /\ send_attempts (trace (sockS env'))
       = send_attempts (trace (sockS env)) ++ repeat "nextTick()" 30
    /\ recv_attempts (trace (sockS env')) = recv_attempts (trace (sockS env)) + 30.
Proof.
  exact (proj1 worldStep_ticks float _ _
           (demo_env_with [] (repeat (Some "[]") 30)) 0.5%float 30%Z
           eq_refl eq_refl).
Defined.

(** C3 fails on the code at the double [0x1.9999999999999p-6], just below
    a fortieth of a second: [dur/(1.0/60)] is the double 1.5, which rounds
    to 2, and two ticks are requested, while [dur * 60] rounds to 1 both
    on binary64 and in exact arithmetic. *)
Lemma worldStep_ticks_counterexample :
  let d := 0x1.9999999999999p-6%float in
  send_attempts
    (trace (sockS (fst (worldStep (demo_env_with [] (repeat (Some "[]") 5)) d))))
  = ["nextTick()"; "nextTick()"]
  /\ num_round (d * 60)%float = Ok 1%Z
  /\ Prim2SF d = S754_finite false 7205759403792793 (-58)
  /\ num_round ((7205759403792793 # 2 ^ 58) * 60)%Q = Ok 1%Z.
Proof.
  repeat split; vm_compute; reflexivity.
Qed.

(* ================================================================= *)
(** ** The state codec: reading *)

Section StateReader.
Context {T : Type} {N : PyNum T} {B : PyBuiltins T}.

Lemma run_app (s1 s2 : list (State T -> State T * result unit)) (state : State T) :
  run (s1 ++ s2) state =
    match run s1 state with
    | (state', Ok _) => run s2 state'
    | (state', Raise e) => (state', Raise e)
    end.
Proof.
  revert state. induction s1 as [|s s1 IH]; intro state; simpl; [reflexivity|].
  destruct (s state) as [state' [u|e]]; [apply IH | reflexivity].
Qed.

Lemma component_error (obj : pyval T) (j k : nat) (e : exn) :
  component obj j k = Raise e -> index_or_type_error e = true.
Proof.
  unfold component, item, as_num.
  destruct obj as [x|items]; simpl; [intro H; inversion H; reflexivity|].
  destruct (nth_error items j) as [[y|items']|]; simpl;
    try (intro H; inversion H; reflexivity).
  destruct (nth_error items' k) as [[z|l]|]; simpl;
    intro H; inversion H; reflexivity.
Qed.

Lemma state_at_app (pre st : State T) (m : nat) :
  state_at (pre ++ st) (List.length pre + m) = state_at st m.
Proof.
  unfold state_at. rewrite nth_error_app2 by lia.
  replace (List.length pre + m - List.length pre) with m by lia. reflexivity.
Qed.

Lemma list_set_app (pre st : State T) (m : nat) (b : SubState T) :
  list_set (pre ++ st) (List.length pre + m) b = pre ++ list_set st m b.
Proof.
  induction pre as [|a pre IH]; simpl; [reflexivity|]. rewrite IH. reflexivity.
Qed.

Lemma assign_component_shifted (pre : State T) (rhs : result T) (m k : nat) :
  shifted pre (assign set_component rhs (List.length pre + m) k)
              (assign set_component rhs m k).
Proof.
  intro st. unfold assign, set_component.
  destruct rhs as [x|e]; [|reflexivity].
  rewrite state_at_app.
  destruct (state_at st m) as [[v|q]|e]; simpl; rewrite ?list_set_app; reflexivity.
Qed.

Lemma assign_quat_shifted (pre : State T) (rhs : result T) (m k : nat) :
  shifted pre (assign set_quat_field rhs (List.length pre + m) k)
              (assign set_quat_field rhs m k).
Proof.
  intro st. unfold assign, set_quat_field.
  destruct rhs as [x|e]; [|reflexivity].
  rewrite state_at_app.
  destruct (state_at st m) as [[v|q]|e]; simpl; rewrite ?list_set_app; reflexivity.
Qed.

Lemma run_shifted (pre : State T) (ss' ss : list (State T -> State T * result unit)) :
  Forall2 (shifted pre) ss' ss ->
  forall st, run ss' (pre ++ st) = let (st', r) := run ss st in (pre ++ st', r).
Proof.
  induction 1 as [|s' s ss' ss Hs _ IH]; intro st; simpl; [reflexivity|].
  rewrite (Hs st). destruct (s st) as [st1 [u|e]]; [apply IH | reflexivity].
Qed.

Lemma read_body_shifted (pre : State T) (obj : pyval T) :
  Forall2 (shifted pre) (read_body obj (List.length pre + 0)) (read_body obj 0).
Proof.
  unfold read_body. simpl.
  repeat (first [ apply Forall2_nil
                | apply Forall2_cons;
                  [ first [ rewrite <- Nat.add_assoc; apply assign_component_shifted
                          | rewrite <- Nat.add_assoc; apply assign_quat_shifted ] | ] ]).
Qed.

Ltac read_step obj j k :=
  let E := fresh "E" in
  pose proof (component_error obj j k) as E;
  destruct (component obj j k) as [?x|?e]; simpl;
  [ clear E
  | split;
    [ eexists; split; [reflexivity | apply (E _ eq_refl)]
    | do 4 eexists; reflexivity ] ].

(** One entry read into the four blocks of a body: when the entry has its
    thirteen numbers they are all written; otherwise the first missing one
    raises, and the blocks keep their kinds. *)
Lemma read_body_here (obj : pyval T) (v0 v1 v2 : vec3 T) (q : vec4 T)
    (post : State T) :
  let (st', r) :=
    run (read_body obj 0)
        (RealVector v0 :: RealVector v1 :: RealVector v2 :: SO3 q :: post) in
  if entry_ok obj
  then st' = entry_blocks obj ++ post /\ r = Ok tt
  else (exists e, r = Raise e /\ index_or_type_error e = true)
       /\ exists w0 w1 w2 q',
            st' = RealVector w0 :: RealVector w1 :: RealVector w2 :: SO3 q' :: post.
Proof.
  destruct v0 as [[a0 b0] c0], v1 as [[a1 b1] c1], v2 as [[a2 b2] c2],
           q as [[[qw qx] qy] qz].
  unfold read_body, entry_ok, positions, entry_blocks. simpl.
  read_step obj 0 0. read_step obj 0 1. read_step obj 0 2.
  read_step obj 1 0. read_step obj 1 1. read_step obj 1 2.
  read_step obj 2 0. read_step obj 2 1. read_step obj 2 2.
  read_step obj 3 0. read_step obj 3 1. read_step obj 3 2.
  read_step obj 3 3.
  split; reflexivity.
Qed.

(** An entry read where the state has no block left: its first number is
    looked up, which can fail, and then the state is indexed past its
    end. *)
Lemma read_body_nil (obj : pyval T) :
  exists e, run (read_body obj 0) [] = ([], Raise e)
            /\ (index_or_type_error e = true \/ e = Unchecked).
Proof.
  unfold read_body. simpl.
  pose proof (component_error obj 0 0) as E.
  destruct (component obj 0 0) as [x|e]; simpl.
  - exists Unchecked. split; [reflexivity | right; reflexivity].
  - exists e. split; [reflexivity | left; apply (E _ eq_refl)].
Qed.

Lemma run_read_body_at (pre : State T) (obj : pyval T) (st : State T) :
  run (read_body obj (List.length pre)) (pre ++ st)
  = let (st', r) := run (read_body obj 0) st in (pre ++ st', r).
Proof.
  rewrite <- (Nat.add_0_r (List.length pre)) at 1.
  apply run_shifted, read_body_shifted.
Qed.

Lemma layout_nil (state : State T) : layout 0 state = true -> state = [].
Proof. destruct state; [reflexivity | discriminate]. Qed.

(** The loop of [readState] on a state of [n] bodies after a prefix: it
    returns exactly when there are at most [n] entries and each has its
    thirteen numbers; then the entries fill the leading blocks and the
    others are as before.  Otherwise it stops at the first place that is
    missing, with an index or type error, or, when there are more than [n]
    entries, where the state is indexed past its end; the state, written
    in part, still has the layout. *)
Lemma read_bodies_layout (objs : list (pyval T)) :
  forall (n : nat) (pre rest : State T),
    layout n rest = true ->
    let (st', r) := run (read_bodies objs (List.length pre)) (pre ++ rest) in
    if (List.length objs <=? n) && forallb entry_ok objs
    then st' = pre ++ flat_map entry_blocks objs
                   ++ skipn (4 * List.length objs) rest
         /\ r = Ok tt
    else (exists e, r = Raise e
                    /\ (index_or_type_error e = true
                        \/ (e = Unchecked /\ n < List.length objs)))
         /\ exists rest', st' = pre ++ rest' /\ layout n rest' = true.
Proof.
  induction objs as [|obj objs IH]; intros n pre rest L.
  - simpl. split; reflexivity.
  - change (read_bodies (obj :: objs) (List.length pre))
      with (read_body obj (List.length pre)
            ++ read_bodies objs (List.length pre + 4)).
    rewrite run_app, run_read_body_at.
    destruct n as [|n].
    + rewrite (layout_nil _ L).
      destruct (read_body_nil obj) as (e & Hrun & He). rewrite Hrun. simpl.
      split; [|exists []; auto].
      exists e. split; [reflexivity|].
      destruct He as [He| ->]; [left; exact He | right; split; [reflexivity | lia]].
    + destruct rest as [|[v0|] [|[v1|] [|[v2|] [|[|q] rest]]]]; try discriminate L.
      simpl in L.
      pose proof (read_body_here obj v0 v1 v2 q rest) as H.
      destruct (run (read_body obj 0) _) as [st1 r1].
      simpl forallb. simpl List.length.
      change (S (List.length objs) <=? S n) with (List.length objs <=? n).
      destruct (entry_ok obj).
      * destruct H as [-> ->].
        specialize (IH n (pre ++ entry_blocks obj) rest L).
        rewrite length_app in IH. simpl List.length in IH.
        rewrite <- app_assoc in IH.
        destruct (run (read_bodies objs (List.length pre + 4)) _) as [st' r].
        rewrite andb_true_l.
        destruct ((List.length objs <=? n) && forallb entry_ok objs).
        -- destruct IH as [-> ->]. split; [|reflexivity].
           replace (4 * S (List.length objs)) with (4 + 4 * List.length objs) by lia.
           simpl. rewrite <- !app_assoc. reflexivity.
        -- destruct IH as [(e & -> & He) (rest' & -> & L')]. split.
           ++ exists e. split; [reflexivity|].
              destruct He as [He|[-> He]];
                [left; exact He | right; split; [reflexivity | lia]].
           ++ exists (entry_blocks obj ++ rest'). rewrite <- app_assoc.
              split; [reflexivity | exact L'].
      * destruct H as [(e & -> & He) (w0 & w1 & w2 & q' & ->)].
        rewrite andb_false_l, andb_false_r.
        split; [exists e; auto|].
        eexists. split; [reflexivity | exact L].
Qed.


End StateReader.



(* ================================================================= *)
(** ** The state codec: writing *)

Section Strings.
Open Scope string_scope.

Lemma append_nil_r (s : string) : s ++ "" = s.
Proof. induction s as [|c s IH]; simpl; [reflexivity | rewrite IH; reflexivity]. Qed.

Lemma append_assoc (s1 s2 s3 : string) : (s1 ++ s2) ++ s3 = s1 ++ (s2 ++ s3).
Proof. induction s1 as [|c s1 IH]; simpl; [reflexivity | rewrite IH; reflexivity]. Qed.

Lemma length_append (s1 s2 : string) :
  String.length (s1 ++ s2) = String.length s1 + String.length s2.
Proof. induction s1 as [|c s1 IH]; simpl; [reflexivity | rewrite IH; reflexivity]. Qed.

Lemma starts_with_append (p rest : string) : starts_with p (p ++ rest) = true.
Proof.
  induction p as [|c p IH]; simpl; [reflexivity|].
  rewrite Ascii.eqb_refl, IH. reflexivity.
Qed.

Lemma drop_append (p rest : string) : drop (String.length p) (p ++ rest) = rest.
Proof.
  induction p as [|c p IH]; simpl; [destruct rest; reflexivity | exact IH].
Qed.

(** *** Replacing in a text, piece by piece *)

Lemma rewrites_nil (old new : string) : rewrites old new "" "".
Proof. intro rest. reflexivity. Qed.

Lemma rewrites_app (old new p p' q q' : string) :
  rewrites old new p p' -> rewrites old new q q' ->
  rewrites old new (p ++ q) (p' ++ q').
Proof.
  intros Hp Hq rest. rewrite !append_assoc, Hp, Hq. reflexivity.
Qed.

(** A piece without the first character of [old] is left as it is. *)
Lemma rewrites_lacks (c : ascii) (old' new p : string) :
  lacks c p = true -> rewrites (String c old') new p p.
Proof.
  intros H rest. unfold str_replace.
  induction p as [|x p IH]; simpl in *; [reflexivity|].
  apply andb_true_iff in H. destruct H as [Hx Hp].
  rewrite Ascii.eqb_sym.
  destruct (Ascii.eqb x c); [discriminate Hx|]. simpl.
  rewrite (IH Hp). reflexivity.
Qed.

Lemma rewrites_total (old new p p' : string) :
  rewrites old new p p' -> str_replace old new p = p'.
Proof.
  intro H. specialize (H ""). rewrite !append_nil_r in H. exact H.
Qed.

Lemma rewrites_join (old new : string) (ps ps' : list string) :
  rewrites old new ", " ", " ->
  Forall2 (rewrites old new) ps ps' ->
  rewrites old new (join_comma ps) (join_comma ps').
Proof.
  intros Hsep H.
  induction H as [|p p' ps ps' Hp Hps IH]; [apply rewrites_nil|].
  destruct Hps as [|q q' ps ps' Hq Hps]; [exact Hp|].
  change (join_comma (p :: q :: ps)) with (p ++ ", " ++ join_comma (q :: ps)).
  change (join_comma (p' :: q' :: ps')) with (p' ++ ", " ++ join_comma (q' :: ps')).
  apply rewrites_app; [exact Hp|]. apply rewrites_app; [exact Hsep | exact IH].
Qed.

Lemma rewrites_tuple (old new : string) (ps ps' : list string) :
  rewrites old new "(" "(" -> rewrites old new ")" ")" ->
  rewrites old new ", " ", " ->
  Forall2 (rewrites old new) ps ps' ->
  rewrites old new (repr_tuple ps) (repr_tuple ps').
Proof.
  intros Ho Hc Hsep H. unfold repr_tuple.
  apply rewrites_app; [exact Ho|].
  apply rewrites_app; [apply rewrites_join; assumption | exact Hc].
Qed.

Lemma rewrites_list (old new : string) (ps ps' : list string) :
  rewrites old new "[" "[" -> rewrites old new "]" "]" ->
  rewrites old new ", " ", " ->
  Forall2 (rewrites old new) ps ps' ->
  rewrites old new (repr_list ps) (repr_list ps').
Proof.
  intros Ho Hc Hsep H. unfold repr_list.
  apply rewrites_app; [exact Ho|].
  apply rewrites_app; [apply rewrites_join; assumption | exact Hc].
Qed.

End Strings.

(** *** The two replacements on the text of a state *)

Section Replacements.
Variable repr_finite : float -> string.

Lemma literal_lacks (c : ascii) (s : string) :
  literal_char c = false -> all_chars literal_char s = true -> lacks c s = true.
Proof.
  intros Hc. unfold lacks.
  induction s as [|x s IH]; simpl; [reflexivity|].
  intro H. apply andb_true_iff in H. destruct H as [Hx Hs].
  rewrite (IH Hs), andb_true_r.
  destruct (Ascii.eqb_spec x c) as [->|_]; [congruence | reflexivity].
Qed.

Lemma finite_classes (f : float) :
  is_finite f = true ->
  float_repr repr_finite f = repr_finite f
  /\ repr_nan_replaced repr_finite f = repr_finite f
  /\ repr_replaced repr_finite f = repr_finite f.
Proof.
  unfold is_finite, float_repr, repr_nan_replaced, repr_replaced, float_repr.
  destruct (classify f); intro H; try discriminate H; auto.
Qed.

Lemma nan_rewrites (f : float) :
  (is_finite f = true -> repr_round_trips repr_finite f) ->
  rewrites "nan" float_nan_expr
           (float_repr repr_finite f) (repr_nan_replaced repr_finite f).
Proof.
  intro H.
  destruct (is_finite f) eqn:Ef.
  - destruct (finite_classes f Ef) as (-> & -> & _).
    apply rewrites_lacks, literal_lacks; [reflexivity | apply (H eq_refl)].
  - unfold is_finite in Ef. unfold float_repr, repr_nan_replaced, float_repr.
    destruct (classify f); try discriminate Ef; intro rest; reflexivity.
Qed.

Lemma inf_rewrites (f : float) :
  (is_finite f = true -> repr_round_trips repr_finite f) ->
  rewrites "inf" float_inf_expr
           (repr_nan_replaced repr_finite f) (repr_replaced repr_finite f).
Proof.
  intro H.
  destruct (is_finite f) eqn:Ef.
  - destruct (finite_classes f Ef) as (_ & -> & ->).
    apply rewrites_lacks, literal_lacks; [reflexivity | apply (H eq_refl)].
  - unfold is_finite in Ef. unfold float_repr, repr_nan_replaced, repr_replaced, float_repr.
    destruct (classify f); try discriminate Ef; intro rest; reflexivity.
Qed.

End Replacements.

Section ReprRewrites.
Variables B1 B2 : PyBuiltins float.
Variables (c : ascii) (old' new : string).
Hypothesis punctuation : lacks c "()[], " = true.

Let old := String c old'.

Lemma rewrites_punctuation (p : string) :
  In p ["("; ")"; "["; "]"; ", "]%string -> rewrites old new p p.
Proof.
  intro H. apply rewrites_lacks.
  unfold lacks in *. simpl in punctuation.
  repeat (apply andb_true_iff in punctuation;
          let H1 := fresh in destruct punctuation as [H1 punctuation]).
  simpl in H.
  repeat (destruct H as [<-|H]; [simpl; rewrite ?andb_true_r; auto; fail|]);
    try contradiction.
  destruct H as [<-|[]]. simpl.
  repeat match goal with H : negb _ = true |- _ => rewrite H; clear H end.
  reflexivity.
Qed.

Lemma repr_vec3_rewrites (v : vec3 float) :
  (forall f, In f (let '(a, b, d) := v in [a; b; d]) ->
             rewrites old new (@py_repr _ B1 f) (@py_repr _ B2 f)) ->
  rewrites old new (repr_vec3 (B := B1) v) (repr_vec3 (B := B2) v).
Proof.
  destruct v as [[a b] d]. intro H. unfold repr_vec3.
  apply rewrites_tuple; try (apply rewrites_punctuation; simpl; tauto).
  repeat constructor; apply H; simpl; tauto.
Qed.

Lemma repr_vec4_rewrites (v : vec4 float) :
  (forall f, In f (let '(a, b, d, e) := v in [a; b; d; e]) ->
             rewrites old new (@py_repr _ B1 f) (@py_repr _ B2 f)) ->
  rewrites old new (repr_vec4 (B := B1) v) (repr_vec4 (B := B2) v).
Proof.
  destruct v as [[[a b] d] e]. intro H. unfold repr_vec4.
  apply rewrites_tuple; try (apply rewrites_punctuation; simpl; tauto).
  repeat constructor; apply H; simpl; tauto.
Qed.

Lemma repr_body_rewrites (bt : body_tuple float) :
  (forall f, In f (body_nums bt) ->
             rewrites old new (@py_repr _ B1 f) (@py_repr _ B2 f)) ->
  rewrites old new (repr_body (B := B1) bt) (repr_body (B := B2) bt).
Proof.
  destruct bt as [[[p0 p1] p2] [[l0 l1] l2] [[a0 a1] a2] [[[w x] y] z]].
  intro H. unfold repr_body.
  apply rewrites_tuple; try (apply rewrites_punctuation; simpl; tauto).
  repeat constructor;
    first [apply repr_vec3_rewrites | apply repr_vec4_rewrites];
    intros f Hf; apply H; simpl in *; tauto.
Qed.

Lemma repr_state_rewrites (l : list (body_tuple float)) :
  (forall f, In f (flat_map body_nums l) ->
             rewrites old new (@py_repr _ B1 f) (@py_repr _ B2 f)) ->
  rewrites old new (repr_state (B := B1) l) (repr_state (B := B2) l).
Proof.
  intro H. unfold repr_state.
  apply rewrites_list; try (apply rewrites_punctuation; simpl; tauto).
  induction l as [|bt l IH]; simpl; constructor.
  - apply repr_body_rewrites. intros f Hf. apply H. simpl.
    apply in_or_app. left. exact Hf.
  - apply IH. intros f Hf. apply H. simpl. apply in_or_app. right. exact Hf.
Qed.

End ReprRewrites.

(** The text [writeState] sends is the display of the state with every
    number in its replaced form. *)
Lemma state_text_replaced (repr_finite : float -> string)
    (l : list (body_tuple float)) :
  (forall f, In f (flat_map body_nums l) -> is_finite f = true ->
             repr_round_trips repr_finite f) ->
  state_text (B := float_builtins repr_finite) l
  = repr_state (B := {| py_repr := repr_replaced repr_finite; py_eval := literal_eval |}) l.
Proof.
  intro H. unfold state_text.
  rewrite (rewrites_total _ _ _ _
             (repr_state_rewrites
                (float_builtins repr_finite)
                {| py_repr := repr_nan_replaced repr_finite; py_eval := literal_eval |}
                "n" "an" float_nan_expr eq_refl l
                (fun f Hf => nan_rewrites repr_finite f (H f Hf)))).
  apply rewrites_total.
  apply (repr_state_rewrites
           {| py_repr := repr_nan_replaced repr_finite; py_eval := literal_eval |}
           {| py_repr := repr_replaced repr_finite; py_eval := literal_eval |}
           "i" "nf" float_inf_expr eq_refl l
           (fun f Hf => inf_rewrites repr_finite f (H f Hf))).
Qed.

(** *** Decoding the text *)

Lemma classify_nan (f : float) : classify f = NaN -> f = nan.
Proof.
  rewrite classify_spec. intro H.
  rewrite <- (SF2Prim_Prim2SF f).
  destruct (Prim2SF f) as [s|s| |s m e]; try reflexivity;
    unfold SF64classify, SFclassify in H; try destruct s; try discriminate H;
    destruct (_ =? _)%Z; discriminate H.
Qed.

Lemma classify_pinf (f : float) : classify f = PInf -> f = infinity.
Proof.
  rewrite classify_spec. intro H.
  rewrite <- (SF2Prim_Prim2SF f).
  destruct (Prim2SF f) as [s|s| |s m e];
    unfold SF64classify, SFclassify in H; try destruct s; try discriminate H;
    try reflexivity; destruct (_ =? _)%Z; discriminate H.
Qed.

Lemma classify_ninf (f : float) : classify f = NInf -> f = neg_infinity.
Proof.
  rewrite classify_spec. intro H.
  rewrite <- (SF2Prim_Prim2SF f).
  destruct (Prim2SF f) as [s|s| |s m e];
    unfold SF64classify, SFclassify in H; try destruct s; try discriminate H;
    try reflexivity; destruct (_ =? _)%Z; discriminate H.
Qed.

Section Decoding.
Variable repr_finite : float -> string.
Open Scope string_scope.

Lemma literal_char_not (c x : ascii) :
  literal_char c = true -> literal_char x = false -> Ascii.eqb c x = false.
Proof.
  intros Hc Hx. destruct (Ascii.eqb_spec c x) as [->|_]; [congruence | reflexivity].
Qed.

Lemma ends_item_not_literal (rest : string) :
  ends_item rest = true ->
  match rest with
  | EmptyString => True
  | String c _ => literal_char c = false /\ Ascii.eqb c "f" = false
  end.
Proof.
  destruct rest as [|c rest]; simpl; [trivial|].
  intro H.
  destruct (Ascii.eqb_spec c ",") as [->|_]; [split; reflexivity|].
  destruct (Ascii.eqb_spec c ")") as [->|_]; [split; reflexivity|].
  destruct (Ascii.eqb_spec c "]") as [->|_]; [split; reflexivity|].
  discriminate H.
Qed.

Lemma span_literal_append (tok rest : string) :
  all_chars literal_char tok = true -> ends_item rest = true ->
  span_literal (tok ++ rest) = (tok, rest).
Proof.
  intros Ht Hr.
  induction tok as [|c tok IH]; simpl in *.
  - apply ends_item_not_literal in Hr.
    destruct rest as [|x rest]; [reflexivity|].
    simpl. destruct Hr as [-> _]. reflexivity.
  - apply andb_true_iff in Ht. destruct Ht as [Hc Ht].
    rewrite Hc, (IH Ht). reflexivity.
Qed.

(** The text of a finite double is not one of the three replaced forms. *)
Lemma finite_text_plain (tok rest : string) (f : float) :
  all_chars literal_char tok = true -> float_literal tok = Some f ->
  ends_item rest = true ->
  exists c tok',
    tok = String c tok' /\ literal_char c = true
    /\ starts_with float_nan_expr (tok ++ rest) = false
    /\ starts_with float_inf_expr (tok ++ rest) = false
    /\ starts_with ("-" ++ float_inf_expr) (tok ++ rest) = false.
Proof.
  intros Ht Hf Hr.
  destruct tok as [|c tok]; [discriminate Hf|].
  simpl in Ht. apply andb_true_iff in Ht. destruct Ht as [Hc Ht].
  exists c, tok. split; [reflexivity|]. split; [exact Hc|].
  assert (Hcf : Ascii.eqb "f" c = false).
  { rewrite Ascii.eqb_sym. apply literal_char_not; [exact Hc | reflexivity]. }
  change float_nan_expr with (String "f" (drop 1 float_nan_expr)).
  change float_inf_expr with (String "f" (drop 1 float_inf_expr)).
  cbn [starts_with append]. rewrite Hcf. cbn [andb].
  repeat split.
  destruct (Ascii.eqb "-" c); [|reflexivity]. cbn [andb].
  destruct tok as [|c' tok]; cbn [append].
  - apply ends_item_not_literal in Hr.
    destruct rest as [|x rest]; [reflexivity|].
    destruct Hr as [_ Hx]. cbn [starts_with].
    rewrite Ascii.eqb_sym, Hx. reflexivity.
  - simpl in Ht. apply andb_true_iff in Ht. destruct Ht as [Hc' _].
    cbn [starts_with].
    rewrite Ascii.eqb_sym, (literal_char_not c' "f" Hc' eq_refl). reflexivity.
Qed.

Lemma parse_number_replaced (f : float) (rest : string) :
  (is_finite f = true -> repr_round_trips repr_finite f) ->
  ends_item rest = true ->
  parse_number (repr_replaced repr_finite f ++ rest) = Some (PNum f, rest).
Proof.
  intros H Hr. unfold parse_number.
  destruct (is_finite f) eqn:Ef.
  - destruct (finite_classes repr_finite f Ef) as (_ & _ & ->).
    destruct (H eq_refl) as [Hchars Hlit].
    destruct (finite_text_plain _ rest f Hchars Hlit Hr)
      as (c & tok' & _ & _ & -> & -> & ->).
    rewrite (span_literal_append _ _ Hchars Hr), Hlit. reflexivity.
  - unfold is_finite in Ef. unfold repr_replaced.
    destruct (classify f) eqn:Ec; try discriminate Ef.
    + rewrite (classify_pinf f Ec).
      change (starts_with float_nan_expr (float_inf_expr ++ rest)) with false.
      rewrite starts_with_append, drop_append. reflexivity.
    + rewrite (classify_ninf f Ec).
      change (starts_with float_nan_expr (("-" ++ float_inf_expr) ++ rest)) with false.
      change (starts_with float_inf_expr (("-" ++ float_inf_expr) ++ rest)) with false.
      rewrite starts_with_append.
      change (S (String.length float_inf_expr))
        with (String.length ("-" ++ float_inf_expr)).
      rewrite drop_append. reflexivity.
    + rewrite (classify_nan f Ec).
      rewrite starts_with_append, drop_append. reflexivity.
Qed.

Lemma parses_number (f : float) :
  (is_finite f = true -> repr_round_trips repr_finite f) ->
  parses (repr_replaced repr_finite f) (PNum f).
Proof.
  intro H.
  assert (Hfirst : exists c t',
             repr_replaced repr_finite f = String c t'
             /\ Ascii.eqb c "(" = false /\ Ascii.eqb c "[" = false
             /\ Ascii.eqb c ")" = false /\ Ascii.eqb c "]" = false).
  { destruct (is_finite f) eqn:Ef.
    - destruct (finite_classes repr_finite f Ef) as (_ & _ & ->).
      destruct (H eq_refl) as [Hchars Hlit].
      destruct (finite_text_plain _ "" f Hchars Hlit eq_refl)
        as (c & tok' & -> & Hc & _).
      exists c, tok'. split; [reflexivity|].
      repeat split; apply literal_char_not; auto.
    - unfold is_finite in Ef. unfold repr_replaced.
      destruct (classify f); try discriminate Ef;
        eexists; eexists; (split; [reflexivity|]); repeat split. }
  destruct Hfirst as (c & t' & Et & H1 & H2 & H3 & H4).
  split.
  - rewrite Et. simpl. rewrite H3, H4. reflexivity.
  - intros fuel rest Hfuel Hr.
    destruct fuel as [|fuel]; [lia|].
    pose proof (parse_number_replaced f rest H Hr) as P.
    rewrite Et in *. cbn [parse_value append]. rewrite H1, H2. exact P.
Qed.

End Decoding.

Section Displays.
Open Scope string_scope.

Lemma starts_item_first (t : string) (close : ascii) :
  starts_item t = true -> close = ")"%char \/ close = "]"%char ->
  exists c t', t = String c t' /\ Ascii.eqb c close = false.
Proof.
  destruct t as [|c t]; [discriminate|]. simpl. intros H Hclose.
  apply andb_true_iff in H. destruct H as [H1 H2].
  exists c, t. split; [reflexivity|].
  destruct Hclose as [-> | ->];
    [destruct (Ascii.eqb c ")") | destruct (Ascii.eqb c "]")];
    first [reflexivity | discriminate].
Qed.

(** The items of a display, decoded one after the other. *)
Lemma parse_items_join (close : ascii) (texts : list string)
    (values : list (pyval float)) :
  close = ")"%char \/ close = "]"%char ->
  Forall2 parses texts values -> texts <> [] ->
  forall (fuel : nat) (may_close : bool) (rest : string),
    String.length (join_comma texts) + 1 < fuel ->
    parse_items fuel close may_close (join_comma texts ++ String close rest)
    = Some (values, rest).
Proof.
  intros Hclose H.
  induction H as [|t v texts values [Hstart Ht] Hrest IH]; [congruence|].
  intros _ fuel may_close rest Hfuel.
  destruct fuel as [|fuel]; [lia|].
  destruct (starts_item_first t close Hstart Hclose) as (c & t' & Et & Hc).
  assert (Hcomma : Ascii.eqb "," close = false)
    by (destruct Hclose as [-> | ->]; reflexivity).
  destruct Hrest as [|t2 v2 texts values Ht2 Hrest].
  - change (join_comma [t]) with t in *.
    assert (E1 : t ++ String close rest = String c (t' ++ String close rest))
      by (rewrite Et; reflexivity).
    rewrite E1. cbn [parse_items]. rewrite Hc, andb_false_r. rewrite <- E1.
    rewrite (Ht fuel (String close rest)).
    + cbn [starts_with]. rewrite Hcomma. cbn [andb].
      rewrite Ascii.eqb_refl. reflexivity.
    + lia.
    + simpl. destruct Hclose as [-> | ->]; reflexivity.
  - change (join_comma (t :: t2 :: texts))
      with (t ++ ", " ++ join_comma (t2 :: texts)) in *.
    rewrite !length_append in Hfuel.
    change (String.length ", ") with 2 in Hfuel.
    rewrite !append_assoc.
    remember (join_comma (t2 :: texts) ++ String close rest) as rest1 eqn:Erest1.
    assert (E1 : t ++ ", " ++ rest1 = String c (t' ++ ", " ++ rest1))
      by (rewrite Et; reflexivity).
    rewrite E1. cbn [parse_items]. rewrite Hc, andb_false_r. rewrite <- E1.
    rewrite (Ht fuel (", " ++ rest1)); [|lia|reflexivity].
    change (starts_with ", " (", " ++ rest1)) with true.
    change (drop 2 (", " ++ rest1)) with rest1.
    cbv iota. subst rest1.
    rewrite (IH ltac:(discriminate) fuel false rest); [reflexivity | lia].
Qed.

Lemma parses_tuple (texts : list string) (values : list (pyval float)) :
  Forall2 parses texts values -> 1 < List.length values ->
  parses (repr_tuple texts) (PSeq values).
Proof.
  intros H Hlen. split; [reflexivity|].
  intros fuel rest Hfuel Hr.
  unfold repr_tuple in *. rewrite !length_append in Hfuel. simpl in Hfuel.
  destruct fuel as [|fuel]; [lia|].
  rewrite !append_assoc. cbn [parse_value append Ascii.eqb Bool.eqb].
  change (")" ++ rest) with (String ")" rest).
  rewrite (parse_items_join ")" texts values); auto; try lia.
  - destruct values as [|v1 [|v2 values]]; simpl in Hlen; try lia; reflexivity.
  - intros ->. inversion H; subst. simpl in Hlen. lia.
Qed.

Lemma parses_list (texts : list string) (values : list (pyval float)) :
  Forall2 parses texts values ->
  parses (repr_list texts) (PSeq values).
Proof.
  intros H. split; [reflexivity|].
  intros fuel rest Hfuel Hr.
  unfold repr_list in *. rewrite !length_append in Hfuel. simpl in Hfuel.
  destruct fuel as [|fuel]; [lia|].
  rewrite !append_assoc. cbn [parse_value append Ascii.eqb Bool.eqb].
  change ("]" ++ rest) with (String "]" rest).
  destruct texts as [|t texts].
  - inversion H; subst. destruct fuel as [|fuel]; [lia|]. reflexivity.
  - rewrite (parse_items_join "]" (t :: texts) values); auto; try lia.
    discriminate.
Qed.

End Displays.

Section RoundTrip.
Variable repr_finite : float -> string.

Let replaced : PyBuiltins float :=
  {| py_repr := repr_replaced repr_finite; py_eval := literal_eval |}.

Lemma parses_vec3 (v : vec3 float) :
  (forall f, In f (let '(a, b, c) := v in [a; b; c]) ->
             is_finite f = true -> repr_round_trips repr_finite f) ->
  parses (repr_vec3 (B := replaced) v) (vec3_value v).
Proof.
  destruct v as [[a b] c]. intro H.
  apply parses_tuple; [|simpl; lia].
  repeat constructor; apply parses_number; apply H; simpl; tauto.
Qed.

Lemma parses_vec4 (v : vec4 float) :
  (forall f, In f (let '(a, b, c, d) := v in [a; b; c; d]) ->
             is_finite f = true -> repr_round_trips repr_finite f) ->
  parses (repr_vec4 (B := replaced) v) (vec4_value v).
Proof.
  destruct v as [[[a b] c] d]. intro H.
  apply parses_tuple; [|simpl; lia].
  repeat constructor; apply parses_number; apply H; simpl; tauto.
Qed.

Lemma parses_body (bt : body_tuple float) :
  (forall f, In f (body_nums bt) ->
             is_finite f = true -> repr_round_trips repr_finite f) ->
  parses (repr_body (B := replaced) bt) (body_value bt).
Proof.
  destruct bt as [[[p0 p1] p2] [[l0 l1] l2] [[a0 a1] a2] [[[w x] y] z]].
  intro H. apply parses_tuple; [|simpl; lia].
  repeat constructor;
    first [apply parses_vec3 | apply parses_vec4];
    intros f Hf; apply H; simpl in *; tauto.
Qed.

Lemma literal_eval_state (l : list (body_tuple float)) :
  (forall f, In f (flat_map body_nums l) ->
             is_finite f = true -> repr_round_trips repr_finite f) ->
  literal_eval (repr_state (B := replaced) l) = Ok (state_value l).
Proof.
  intro H.
  assert (P : parses (repr_state (B := replaced) l) (state_value l)).
  { apply parses_list.
    induction l as [|bt l IH]; simpl; constructor.
    - apply parses_body. intros f Hf. apply H. simpl.
      apply in_or_app. left. exact Hf.
    - apply IH. intros f Hf. apply H. simpl. apply in_or_app. right. exact Hf. }
  destruct P as [_ P]. unfold literal_eval.
  specialize (P (S (String.length (repr_state (B := replaced) l))) ""%string
                ltac:(lia) eq_refl).
  rewrite append_nil_r in P. rewrite P. reflexivity.
Qed.

(** [stateToList] on a state of the layout: it returns the bodies, block
    for block. *)
Lemma collect_layout (n : nat) : forall (k : nat) (pre state : State float),
  layout n state = true -> List.length pre = 4 * k ->
  exists l,
    collect (fun b => body_at (pre ++ state) (4 * b)) (seq k n) = Ok l
    /\ blocks_of l = state /\ List.length l = n.
Proof.
  induction n as [|n IH]; intros k pre state L Hpre.
  - exists []. rewrite (layout_nil state L). repeat split.
  - destruct state as [|[p|] [|[v|] [|[a|] [|[|q] rest]]]]; try discriminate L.
    simpl in L.
    destruct (IH (S k) (pre ++ [RealVector p; RealVector v; RealVector a; SO3 q])
                 rest L) as (l & Hl & Hb & Hlen).
    { rewrite length_app. simpl. lia. }
    rewrite <- app_assoc in Hl. cbn [app] in Hl.
    exists (BodyTuple p v a q :: l).
    change (seq k (S n)) with (k :: seq (S k) n). cbn [collect].
    unfold body_at at 1.
    rewrite <- Hpre.
    rewrite <- (Nat.add_0_r (List.length pre)) at 1.
    rewrite !state_at_app. cbn [state_at nth_error as_vector as_quat bind].
    rewrite Hl. cbn [bind blocks_of flat_map app List.length bt_pos bt_lin bt_ang bt_quat BodyTuple].
    fold (blocks_of l). rewrite Hb, Hlen. repeat split.
Qed.

Lemma stateToList_layout (env : MyEnvironment float) (state : State float) :
  layout (rigidBodies_ env) state = true ->
  exists l,
    stateToList env state = Ok l
    /\ blocks_of l = state /\ List.length l = rigidBodies_ env.
Proof.
  intro L. exact (collect_layout (rigidBodies_ env) 0 [] state L eq_refl).
Qed.

Lemma blocks_of_nums (l : list (body_tuple float)) :
  state_nums (blocks_of l) = flat_map body_nums l.
Proof.
  induction l as [|bt l IH]; simpl; [reflexivity|].
  destruct bt as [[[p0 p1] p2] [[l0 l1] l2] [[a0 a1] a2] [[[w x] y] z]].
  unfold state_nums in *. simpl. rewrite IH. reflexivity.
Qed.

(** C7.  For a state of the layout whose finite numbers [repr] prints as
    literals that denote them, [stateToList] returns the bodies of the
    state, and the text [writeState] sends for them, once ['nan'] and
    ['inf'] are replaced, decodes to these very tuples:
    infinities as infinities and NaN as NaN. *)
Theorem writeState_round_trip (env : MyEnvironment float) (state : State float) :
  layout (rigidBodies_ env) state = true ->
  (forall f, In f (state_nums state) -> is_finite f = true ->
             repr_round_trips repr_finite f) ->
  exists l,
    stateToList env state = Ok l
    /\ blocks_of l = state
    /\ literal_eval (state_text (B := float_builtins repr_finite) l)
       = Ok (state_value l)
    /\ send_attempts
         (trace (sockS (fst (writeState (B := float_builtins repr_finite) env state))))
       = send_attempts (trace (sockS env))
         ++ [("submitState(" ++ state_text (B := float_builtins repr_finite) l ++ ")")%string].
Proof.
  intros L H.
  destruct (stateToList_layout env state L) as (l & Hl & Hb & _).
  assert (H' : forall f, In f (flat_map body_nums l) -> is_finite f = true ->
                         repr_round_trips repr_finite f).
  { intros f Hf. apply H. rewrite <- Hb, blocks_of_nums. exact Hf. }
  exists l. split; [exact Hl|]. split; [exact Hb|]. split.
  - rewrite (state_text_replaced repr_finite l H').
    apply literal_eval_state. exact H'.
  - unfold writeState. rewrite Hl.
    pose proof (call_sends_once (B := float_builtins repr_finite) env
                  ("submitState(" ++ state_text (B := float_builtins repr_finite) l ++ ")")%string)
      as C.
    destruct (call env _) as [env' [v|e]]; exact C.
Qed.

End RoundTrip.

(** A body at rest at [(0.5, -2.25, 3)] with unbounded and undefined
    velocities, printed by [repr_exact]. *)
Lemma writeState_round_trip_witness :
  let state : State float :=
    [RealVector (0.5, -2.25, 3)%float;
     RealVector (infinity, neg_infinity, nan);
     RealVector (0, -0, 1024)%float;
     SO3 (1, 0, 0, 0)%float] in
  exists l,
    stateToList demo_env state = Ok l
    /\ blocks_of l = state
    /\ literal_eval (state_text l) = Ok (state_value l)
    /\ send_attempts (trace (sockS (fst (writeState demo_env state))))
       = send_attempts (trace (sockS demo_env))
         ++ [("submitState(" ++ state_text l ++ ")")%string].
Proof.
  intro state.
  refine (writeState_round_trip repr_exact demo_env state eq_refl _).
  intros f Hin Hfin. simpl in Hin.
  repeat (destruct Hin as [<-|Hin];
          [first [discriminate Hfin | split; vm_compute; reflexivity]|]).
  contradiction.
Defined.

(* ================================================================= *)
(** ** More on the goal distance *)

Section GoalMetric.
Open Scope Q_scope.

Lemma Qsq_zero (x : Q) : x * x == 0 -> x == 0.
Proof. intro H. nra. Qed.

Lemma Qsq_one (d : Q) : d * d == 1 -> d == 1 \/ d == -(1).
Proof.
  intro H.
  assert (E : (d - 1) * (d + 1) == 0) by nra.
  apply Qmult_integral in E. destruct E as [E|E]; [left | right]; lra.
Qed.

(** In exact arithmetic [dist] returns, and its value does not depend on
    the order of its arguments. *)
Theorem dist_symmetric (s1 s2 : body_tuple Q) :
  exists d12 d21 : Q,
    dist s1 s2 = Ok d12 /\ dist s2 s1 = Ok d21 /\ d12 == d21.
Proof.
  destruct s1 as [[[a1 b1] c1] l1 g1 [[[w1 x1] y1] z1]].
  destruct s2 as [[[a2 b2] c2] l2 g2 [[[w2 x2] y2] z2]].
  unfold dist, pos_term, orient_term, quat_dot, py_sum. simpl.
  do 2 eexists. do 2 (split; [reflexivity|]). ring.
Qed.

(** In exact arithmetic, between bodies with unit quaternions [dist]
    returns a value that is never negative, and that is zero exactly when
    the positions are equal and the quaternions are equal up to sign. *)
Theorem dist_zero_iff (s1 s2 : body_tuple Q) :
  unit_quat (bt_quat s1) -> unit_quat (bt_quat s2) ->
  exists d : Q,
    dist s1 s2 = Ok d
    /\ 0 <= d
    /\ (d == 0 <->
        pos_eq (bt_pos s1) (bt_pos s2)
        /\ (quat_eq (bt_quat s1) (bt_quat s2)
            \/ quat_eq (bt_quat s1) (quat_opp (bt_quat s2)))).
Proof.
  destruct s1 as [[[a1 b1] c1] l1 g1 [[[w1 x1] y1] z1]].
  destruct s2 as [[[a2 b2] c2] l2 g2 [[[w2 x2] y2] z2]].
  intros U1 U2.
  unfold unit_quat, quat_eq, quat_opp, pos_eq, dist, pos_term,
    orient_term, quat_dot, py_sum in *.
  simpl in *.
  eexists. split; [reflexivity|].
  change (inject_Z 0) with 0. change (inject_Z 1) with 1.
  pose proof (dot4_bound _ _ _ _ _ _ _ _ U1 U2) as CS.
  set (d := w1 * w2 + x1 * x2 + y1 * y2 + z1 * z2) in *.
  assert (Ed : 0 + w1 * w2 + x1 * x2 + y1 * y2 + z1 * z2 == d)
    by (unfold d; ring).
  rewrite Ed.
  pose proof (Qsq_nonneg (a1 - a2)) as Pa.
  pose proof (Qsq_nonneg (b1 - b2)) as Pb.
  pose proof (Qsq_nonneg (c1 - c2)) as Pc.
  simpl in Pa, Pb, Pc.
  split; [lra|]. split.
  - intro H.
    assert (Ha : (a1 - a2) * (a1 - a2) == 0) by lra.
    assert (Hb : (b1 - b2) * (b1 - b2) == 0) by lra.
    assert (Hc : (c1 - c2) * (c1 - c2) == 0) by lra.
    assert (Hd : d * d == 1) by lra.
    apply Qsq_zero in Ha, Hb, Hc.
    split; [repeat split; lra|].
    (* |q1 - d q2|^2 = 1 - d^2 = 0 *)
    assert (N0 : (w1 - d * w2) ^ 2 + (x1 - d * x2) ^ 2
                 + (y1 - d * y2) ^ 2 + (z1 - d * z2) ^ 2 == 0).
    { transitivity ((w1 * w1 + x1 * x1 + y1 * y1 + z1 * z1)
                    - 2 * d * d
                    + d * d * (w2 * w2 + x2 * x2 + y2 * y2 + z2 * z2));
        [unfold d; ring | rewrite U1, U2; lra]. }
    pose proof (Qsq_nonneg (w1 - d * w2)) as Pw.
    pose proof (Qsq_nonneg (x1 - d * x2)) as Px.
    pose proof (Qsq_nonneg (y1 - d * y2)) as Py.
    pose proof (Qsq_nonneg (z1 - d * z2)) as Pz.
    simpl in N0, Pw, Px, Py, Pz.
    assert (Hw : (w1 - d * w2) * (w1 - d * w2) == 0) by lra.
    assert (Hx : (x1 - d * x2) * (x1 - d * x2) == 0) by lra.
    assert (Hy : (y1 - d * y2) * (y1 - d * y2) == 0) by lra.
    assert (Hz : (z1 - d * z2) * (z1 - d * z2) == 0) by lra.
    apply Qsq_zero in Hw, Hx, Hy, Hz.
    destruct (Qsq_one d Hd) as [E|E]; [left | right];
      rewrite E in Hw, Hx, Hy, Hz; repeat split; lra.
  - intros [(Ea & Eb & Ec) Hq].
    assert (Hd : d * d == 1).
    { destruct Hq as [(Ew & Ex & Ey & Ez) | (Ew & Ex & Ey & Ez)];
        unfold d; rewrite Ew, Ex, Ey, Ez.
      - transitivity ((w2 * w2 + x2 * x2 + y2 * y2 + z2 * z2)
                      * (w2 * w2 + x2 * x2 + y2 * y2 + z2 * z2));
          [ring | rewrite U2; ring].
      - transitivity ((w2 * w2 + x2 * x2 + y2 * y2 + z2 * z2)
                      * (w2 * w2 + x2 * x2 + y2 * y2 + z2 * z2));
          [ring | rewrite U2; ring]. }
    rewrite Ea, Eb, Ec, Hd. ring.
Qed.

(** The theorem at two bodies a rotation apart. *)
Lemma dist_zero_iff_witness :
  let s1 := BodyTuple (1, 2, 3) (0, 0, 0) (0, 0, 0) (1, 0, 0, 0) in
  let s2 := BodyTuple (1, 2, 3) (0, 0, 0) (0, 0, 0) (3 # 5, 4 # 5, 0, 0) in
  exists d : Q, dist s1 s2 = Ok d /\ 0 <= d /\ d == 16 # 25.
Proof.
  intros s1 s2.
  destruct (dist_zero_iff s1 s2 eq_refl eq_refl) as (d & Hd & H & _).
  exists d. split; [exact Hd|]. split; [exact H|].
  inversion Hd. reflexivity.
Defined.

End GoalMetric.

(* ================================================================= *)
(** ** More on goal satisfaction *)

Section GoalVerdict.
Context {T : Type} {N : PyNum T} {P : PyPow T}.

Lemma layout_length (n : nat) : forall state : State T,
  layout n state = true -> List.length state = 4 * n.
Proof.
  induction n as [|n IH]; intros state L.
  - destruct state; [reflexivity | discriminate L].
  - destruct state as [|[p|] [|[l|] [|[a|] [|[|q] rest]]]]; try discriminate L.
    simpl in L. simpl List.length. rewrite (IH rest L). lia.
Qed.

(** On a state of the layout, with criteria on bodies that exist,
    [isSatisfied_Py] does what summing does: a square that raises ends the
    call with its error; otherwise the call returns, the distance it
    leaves in [self.distance] is the sum, criterion by criterion, of
    [dist] between the criterion's body and its target, and the verdict is
    whether that sum is not above [2 * 0.1], however many criteria there
    are.  Where no square can raise, as in exact arithmetic, the call
    returns. *)
Theorem isSatisfied_Py_total (n : nat) (state : State T)
    (c : criterion T) (rest : list (criterion T)) :
  layout n state = true ->
  bodies_below n (c :: rest) = true ->
  isSatisfied_Py (c :: rest) state
  = (d <- total_distance (fun b => body_of state b) (c :: rest) ;;
     Ok (d, negb (num_gtb d (num_mul (num_of_int 2) num_tenth))))
  /\ (squares_return P ->
      exists d,
        total_distance (fun b => body_of state b) (c :: rest) = Ok d
        /\ isSatisfied_Py (c :: rest) state
           = Ok (d, negb (num_gtb d (num_mul (num_of_int 2) num_tenth)))).
Proof.
  intros L Hb.
  pose proof (isSatisfied_Py_computes n state c rest L Hb) as H.
  split; [exact H|].
  intro S. rewrite H. unfold total_distance.
  destruct (sum_from _ _) as [d|e] eqn:E.
  - exists d. split; reflexivity.
  - destruct (sum_from_raises _ _ _ _ E) as [x Hx].
    destruct (S x) as [y Hy]. congruence.
Qed.

End GoalVerdict.

Lemma squares_return_Q : squares_return PyPow_Q.
Proof. intro x. exists (x * x)%Q. reflexivity. Qed.

(** Three criteria on the one body of a state, in exact arithmetic: the
    distance is three times [9/100], above the threshold for one. *)
Lemma isSatisfied_Py_total_witness :
  let c : criterion Q :=
    Criterion 0 (BodyTuple (0, 0, 0)%Q (0, 0, 0)%Q (0, 0, 0)%Q (1, 0, 0, 0)%Q) in
  let state := state_off_by (3 # 10)%Q in
  exists d : Q,
    total_distance (fun b => body_of state b) [c; c; c] = Ok d
    /\ isSatisfied_Py [c; c; c] state = Ok (d, false)
    /\ (d == 27 # 100)%Q.
Proof.
  intros c state.
  destruct (proj2 (isSatisfied_Py_total 1 state c [c; c] eq_refl eq_refl)
              squares_return_Q)
    as (d & Hd & H).
  exists d. split; [exact Hd|].
  rewrite H. vm_compute in Hd. injection Hd as Hd. subst d.
  split; reflexivity.
Defined.

Lemma ltb_nan (x : float) : PrimFloat.ltb x nan = false.
Proof.
  rewrite ltb_spec. change (Prim2SF nan) with S754_nan.
  destruct (Prim2SF x) as [s|s| |s m e]; reflexivity.
Qed.

(** On binary64 a distance that is a NaN counts as reaching the goal:
    [nan > threshold] is false, so the call returns [True]. *)
Theorem isSatisfied_Py_nan (P : PyPow float)
    (criteria : list (criterion float))
    (state : State float) (d : float) (sat : bool) :
  isSatisfied_Py criteria state = Ok (d, sat) ->
  classify d = NaN ->
  sat = true.
Proof.
  unfold isSatisfied_Py. intros H Hd.
  destruct (crit_loop state criteria (num_of_int 0) None) as [[d' last]|e];
    [|discriminate H].
  simpl in H.
  destruct last as [crit|]; [|discriminate H].
  destruct (PrimFloat.ltb _ d') eqn:El; inversion H; subst; [|reflexivity].
  rewrite (classify_nan d Hd), ltb_nan in El. discriminate El.
Qed.

(** A body whose position is unknown, a NaN, and a criterion on it. *)
Lemma isSatisfied_Py_nan_witness :
  isSatisfied_Py one_criterion (state_off_by nan) = Ok (nan, true)
  /\ true = true.
Proof.
  split; [vm_compute; reflexivity|].
  refine (isSatisfied_Py_nan demo_pow one_criterion (state_off_by nan) nan true
            _ eq_refl).
  vm_compute. reflexivity.
Defined.

(* ================================================================= *)
(** ** The session: [simRunning], shutdown, and ticks that fail *)

Section Session.
Context {T : Type} {N : PyNum T} {B : PyBuiltins T}.

Lemma call_keeps_stopped (env : MyEnvironment T) (cmd : string) :
  simRunning env = false -> simRunning (fst (call env cmd)) = false.
Proof.
  intro H. unfold call, sendall, recv.
  destruct (send_script (sockS env)) as [|[|] sends];
    destruct (recv_script (sockS env)) as [|[reply|] replies]; simpl;
    try destruct (eval_reply reply) as [v|e]; simpl; auto.
Qed.

Lemma call_raise_stops (env : MyEnvironment T) (cmd : string) (e : exn) :
  snd (call env cmd) = Raise e -> simRunning (fst (call env cmd)) = false.
Proof.
  unfold call, sendall, recv.
  destruct (send_script (sockS env)) as [|[|] sends];
    destruct (recv_script (sockS env)) as [|[reply|] replies]; simpl;
    try destruct (eval_reply reply) as [v|e']; simpl; auto; discriminate.
Qed.

Lemma call_ok_keeps_flag (env : MyEnvironment T) (cmd : string) (v : pyval T) :
  snd (call env cmd) = Ok v -> simRunning (fst (call env cmd)) = simRunning env.
Proof.
  unfold call, sendall, recv.
  destruct (send_script (sockS env)) as [|[|] sends];
    destruct (recv_script (sockS env)) as [|[reply|] replies]; simpl;
    try destruct (eval_reply reply) as [v'|e']; simpl; auto; discriminate.
Qed.

Lemma tick_loop_keeps_stopped (n : nat) : forall env : MyEnvironment T,
  simRunning env = false -> simRunning (fst (tick_loop env n)) = false.
Proof.
  induction n as [|n IH]; intros env H; simpl; [exact H|].
  pose proof (call_keeps_stopped env "nextTick()" H) as C.
  destruct (call env "nextTick()") as [env' [v|e]]; simpl in *;
    [apply IH; exact C | exact C].
Qed.

(** No operation of the adapter sets [simRunning] again once it is
    false. *)
Theorem simRunning_never_restored (env : MyEnvironment T) :
  simRunning env = false ->
  (forall cmd, simRunning (fst (call env cmd)) = false)
  /\ (forall state, simRunning (fst (fst (readState env state))) = false)
  /\ (forall state, simRunning (fst (writeState env state)) = false)
  /\ (forall control, simRunning (fst (applyControl env control)) = false)
  /\ (forall dur, simRunning (fst (worldStep env dur)) = false)
  /\ simRunning (fst (endSimulation env)) = false.
Proof.
  intro H. repeat split.
  - intro cmd. apply call_keeps_stopped. exact H.
  - intro state. unfold readState.
    pose proof (call_keeps_stopped env "extractState()" H) as C.
    destruct (call env "extractState()") as [env' [[x|objs]|e]]; simpl in *; auto.
    destruct (run (read_bodies objs 0) state). exact C.
  - intro state. unfold writeState.
    destruct (stateToList env state) as [l|e]; [|exact H].
    match goal with
    | |- context [call env ?cmd] =>
        pose proof (call_keeps_stopped env cmd H) as C;
        destruct (call env cmd) as [env' [v|e]]; exact C
    end.
  - intro control. unfold applyControl.
    destruct (negb (list_eqb (con env) control)); [|exact H].
    pose proof (send_controls_frame (cdesc_controllers env) (set_con env control)
                  control 0) as F.
    destruct (send_controls _ _ _ _) as [env' r].
    destruct F as (_ & _ & _ & _ & F & _). simpl in *. congruence.
  - intro dur. unfold worldStep.
    destruct (tick_count dur) as [n|e]; [|exact H].
    apply tick_loop_keeps_stopped. exact H.
  - unfold endSimulation. rewrite H. exact H.
Qed.

(** [endSimulation] in full.  On a session that is not running it sends
    nothing and changes nothing.  On a running one it asks once; the flag
    is false afterwards exactly when the request failed, so a shutdown
    that succeeded leaves the session marked running. *)
Theorem endSimulation_outcome (env : MyEnvironment T) :
  let (env', r) := endSimulation env in
  if simRunning env
  then send_attempts (trace (sockS env'))
       = send_attempts (trace (sockS env)) ++ ["endSimulation()"]
       /\ simRunning env' = is_ok r
  else env' = env /\ r = Ok tt.
Proof.
  unfold endSimulation.
  destruct (simRunning env) eqn:H; [|split; reflexivity].
  pose proof (call_sends_once env "endSimulation()") as S1.
  pose proof (call_raise_stops env "endSimulation()") as S2.
  pose proof (call_ok_keeps_flag env "endSimulation()") as S3.
  destruct (call env "endSimulation()") as [env' [v|e]]; simpl in *.
  - split; [exact S1|]. rewrite (S3 v eq_refl). exact H.
  - split; [exact S1|]. apply (S2 e). reflexivity.
Qed.

(** After a call that raised, whatever it was, shutting down is silent:
    [endSimulation] sends nothing. *)
Theorem endSimulation_after_failure (env : MyEnvironment T) (cmd : string)
    (e : exn) :
  snd (call env cmd) = Raise e ->
  endSimulation (fst (call env cmd)) = (fst (call env cmd), Ok tt).
Proof.
  intro H. unfold endSimulation.
  rewrite (call_raise_stops env cmd e H). reflexivity.
Qed.

Lemma call_fails_raises (env : MyEnvironment T) (cmd : string) :
  call_fails (send_script (sockS env)) (recv_script (sockS env)) = true ->
  exists e, snd (call env cmd) = Raise e.
Proof.
  unfold call_fails, call, sendall, recv.
  destruct (send_script (sockS env)) as [|[|] sends];
    destruct (recv_script (sockS env)) as [|[reply|] replies]; simpl;
    try destruct (eval_reply reply) as [v|e]; simpl;
    intro H; try discriminate H; eauto.
Qed.

(** The tick loop up to its first failing call: [j] ticks are answered,
    the next is not, and the loop had more than [j] to make. *)
Lemma tick_loop_fails (j : nat) : forall (env : MyEnvironment T) (k : nat),
  serves (send_script (sockS env)) (recv_script (sockS env)) j = true ->
  call_fails (skipn j (send_script (sockS env)))
             (skipn j (recv_script (sockS env))) = true ->
  j < k ->
  exists env' e,
    tick_loop env k = (env', Raise e)
    /\ simRunning env' = false
    /\ send_attempts (trace (sockS env'))
       = send_attempts (trace (sockS env)) ++ repeat "nextTick()" (S j).
Proof.
  induction j as [|j IH]; intros env k Hs Hf Hk.
  - destruct k as [|k]; [lia|]. simpl in Hf. simpl tick_loop.
    destruct (call_fails_raises env "nextTick()" Hf) as [e He].
    pose proof (call_raise_stops env "nextTick()" e He) as Hstop.
    pose proof (call_sends_once env "nextTick()") as Hsend.
    destruct (call env "nextTick()") as [env' r]. simpl in *. subst r.
    exists env', e. auto.
  - destruct k as [|k]; [lia|]. simpl tick_loop.
    pose proof (call_sends_once env "nextTick()") as Hsend.
    simpl in Hs. unfold call, sendall, recv in *.
    destruct (send_script (sockS env)) as [|[|] sends] eqn:Es;
      destruct (recv_script (sockS env)) as [|[reply|] replies] eqn:Er;
      try discriminate Hs; simpl in *;
      apply andb_true_iff in Hs; destruct Hs as [Hev Hrest];
      destruct (eval_reply reply) as [v|e0]; try discriminate Hev;
      simpl in *;
      match goal with
      | |- context [tick_loop ?env1 k] =>
          destruct (IH env1 k) as (env' & e & Hrun & Hstop & Ha);
          [exact Hrest | simpl; try rewrite skipn_nil in *; exact Hf | lia |]
      end;
      exists env', e; rewrite Hrun, Ha; simpl; rewrite Hsend, <- app_assoc;
      auto.
Qed.

(** [worldStep] stops at the first tick that fails: the ticks before it
    were made, the failing one was attempted, the session is marked not
    running and the error goes to the caller; the ticks left are not
    made. *)
Theorem worldStep_stops_at_failure (env : MyEnvironment T) (dur : T)
    (n : Z) (j : nat) :
  tick_count dur = Ok n ->
  j < Z.to_nat n ->
  serves (send_script (sockS env)) (recv_script (sockS env)) j = true ->
  call_fails (skipn j (send_script (sockS env)))
             (skipn j (recv_script (sockS env))) = true ->
  exists env' e,
    worldStep env dur = (env', Raise e)
    /\ simRunning env' = false
    /\ send_attempts (trace (sockS env'))
       = send_attempts (trace (sockS env)) ++ repeat "nextTick()" (S j).
Proof.
  intros Hn Hj Hs Hf. unfold worldStep. rewrite Hn.
  exact (tick_loop_fails j env (Z.to_nat n) Hs Hf Hj).
Qed.

End Session.

(** A session whose state socket has failed: every operation leaves it
    stopped. *)
Lemma simRunning_never_restored_witness :
  let env := fst (call (demo_env_with [] [None]) "extractState()") in
  simRunning (fst (worldStep env 0.5%float)) = false
  /\ simRunning (fst (applyControl env [0.5; -1; 2]%float)) = false.
Proof.
  intro env.
  destruct (simRunning_never_restored env eq_refl) as (_ & _ & _ & Ha & Hw & _).
  split; [apply Hw | apply Ha].
Defined.

(** The state socket fails on the first request. *)
Lemma endSimulation_after_failure_witness :
  let env := demo_env_with [] [None] in
  endSimulation (fst (call env "extractState()"))
  = (fst (call env "extractState()"), Ok tt).
Proof.
  exact (endSimulation_after_failure (demo_env_with [] [None]) "extractState()"
           SocketError eq_refl).
Defined.

(** Half a second, thirty ticks, against a peer that answers two ticks
    and then closes the connection. *)
Lemma worldStep_stops_at_failure_witness :
  let env := demo_env_with [] [Some "[]"; Some "[]"] in
  exists env' e,
    worldStep env 0.5%float = (env', Raise e)
    /\ simRunning env' = false
    /\ send_attempts (trace (sockS env'))
       = send_attempts (trace (sockS env)) ++ repeat "nextTick()" 3.
Proof.
  exact (worldStep_stops_at_failure (demo_env_with [] [Some "[]"; Some "[]"])
           0.5%float 30%Z 2 eq_refl ltac:(vm_compute; lia) eq_refl eq_refl).
Defined.

(* ================================================================= *)
(** ** Durations that are whole numbers of ticks *)

Lemma tick_count_aligned_upto :
  forallb (fun k => match tick_count (float_of_Z (Z.of_nat k) / 60)%float with
                    | Ok n => Z.eqb n (Z.of_nat k)
                    | Raise _ => false
                    end)
          (seq 0 3601) = true.
Proof. vm_compute. reflexivity. Qed.

Lemma tick_count_aligned_binary64 (k : nat) :
  k <= 3600 ->
  tick_count (float_of_Z (Z.of_nat k) / 60)%float = Ok (Z.of_nat k).
Proof.
  intros Hk.
  pose proof (proj1 (forallb_forall _ _) tick_count_aligned_upto k) as H.
  assert (Hin : In k (seq 0 3601)) by (apply in_seq; lia).
  specialize (H Hin). cbv beta in H.
  destruct (tick_count (float_of_Z (Z.of_nat k) / 60)%float) as [n|e];
    [|discriminate H].
  apply Z.eqb_eq in H. rewrite H. reflexivity.
Qed.

(** On binary64 a duration of [k] sixtieths of a second, [k / 60], makes
    [worldStep] request exactly [k] ticks of a peer that answers them, for
    every [k] up to 3600, a minute: the rounding of [k / 60] and of the
    division by [1.0/60] never moves the quotient to another integer. *)
Theorem worldStep_aligned (B : PyBuiltins float) (env : MyEnvironment float)
    (k : nat) :
  k <= 3600 ->
  serves (B := B) (send_script (sockS env)) (recv_script (sockS env)) k = true ->
  exists env',
    worldStep env (float_of_Z (Z.of_nat k) / 60)%float = (env', Ok tt)
    /\ send_attempts (trace (sockS env'))
       = send_attempts (trace (sockS env)) ++ repeat "nextTick()" k.
Proof.
  intros Hk Hs.
  destruct (worldStep_serves env (float_of_Z (Z.of_nat k) / 60)%float (Z.of_nat k)
              (tick_count_aligned_binary64 k Hk)) as (env' & H1 & H2 & _).
  { rewrite Nat2Z.id. exact Hs. }
  exists env'. rewrite Nat2Z.id in H2. auto.
Qed.

(** A tenth of a second, six ticks. *)
Lemma worldStep_aligned_witness :
  let env := demo_env_with [] (repeat (Some "[]") 6) in
  exists env',
    worldStep env (float_of_Z 6 / 60)%float = (env', Ok tt)
    /\ send_attempts (trace (sockS env'))
       = send_attempts (trace (sockS env)) ++ repeat "nextTick()" 6.
Proof.
  exact (worldStep_aligned demo_builtins
           (demo_env_with [] (repeat (Some "[]") 6)) 6 ltac:(lia) eq_refl).
Defined.

(* ================================================================= *)
(** ** More on the control applier *)

Section ControlSlices.
Context {T : Type} {N : PyNum T} {B : PyBuiltins T}.

Lemma firstn_skipn_add {A : Type} (d s : nat) : forall l : list A,
  firstn d l ++ firstn s (skipn d l) = firstn (d + s) l.
Proof.
  induction d as [|d IH]; intros [|a l]; simpl; try reflexivity.
  - destruct s; reflexivity.
  - rewrite IH. reflexivity.
Qed.

Lemma slices_concat (cs : list controller) : forall (c : list T) (i : nat),
  List.concat (slices cs c i) = firstn (list_sum (map ctl_dim cs)) (skipn i c).
Proof.
  induction cs as [|ctl cs IH]; intros c i; simpl; [reflexivity|].
  rewrite IH. unfold slice.
  replace (i + ctl_dim ctl - i) with (ctl_dim ctl) by lia.
  replace (i + ctl_dim ctl) with (ctl_dim ctl + i) by lia.
  rewrite <- skipn_skipn. apply firstn_skipn_add.
Qed.

Lemma slices_exact (cs : list controller) : forall (c : list T) (i : nat),
  i + list_sum (map ctl_dim cs) <= List.length c ->
  Forall2 (fun ctl s => List.length s = ctl_dim ctl) cs (slices cs c i).
Proof.
  induction cs as [|ctl cs IH]; intros c i H; simpl in *; constructor.
  - unfold slice. rewrite length_firstn, length_skipn. lia.
  - apply IH. lia.
Qed.

Lemma requests_slices (cs : list controller) : forall (c : list T) (i : nat),
  requests cs c i
  = map (fun p => request_for (fst p) (snd p)) (combine cs (slices cs c i)).
Proof.
  induction cs as [|ctl cs IH]; intros c i; simpl; [reflexivity|].
  rewrite IH. reflexivity.
Qed.

(** The loop leaves a peer that takes every message as it is. *)
Lemma send_controls_sends_ok (cs : list controller) :
  forall (env : MyEnvironment T) (c : list T) (i : nat),
    sends_ok (sockC env) = true ->
    sends_ok (sockC (fst (send_controls env cs c i))) = true.
Proof.
  unfold sends_ok.
  induction cs as [|ctl cs IH]; intros env c i H; simpl; [exact H|].
  unfold sendall.
  destruct (send_script (sockC env)) as [|[|] sends] eqn:E; simpl in *;
    try discriminate H; apply IH; simpl; auto.
Qed.

(** One call with a peer that takes every message: it returns; a control
    equal to the cache changes nothing, another one is stored and sent. *)
Lemma applyControl_dispatch (env : MyEnvironment T) (c : list T) :
  sends_ok (sockC env) = true ->
  exists env1,
    applyControl env c = (env1, Ok tt)
    /\ sends_ok (sockC env1) = true
    /\ cdesc_controllers env1 = cdesc_controllers env
    /\ con env1 = (if list_eqb (con env) c then con env else c)
    /\ trace (sockC env1)
       = trace (sockC env)
         ++ (if list_eqb (con env) c then []
             else map Sent (requests (cdesc_controllers env) c 0)).
Proof.
  intro Hok. unfold applyControl.
  destruct (list_eqb (con env) c) eqn:E; simpl.
  - exists env. rewrite app_nil_r. repeat split; auto.
  - pose proof (send_controls_frame (cdesc_controllers env) (set_con env c) c 0) as F.
    pose proof (send_controls_ok (cdesc_controllers env) (set_con env c) c 0 Hok) as R.
    pose proof (send_controls_sends_ok (cdesc_controllers env) (set_con env c) c 0 Hok) as S.
    destruct (send_controls (set_con env c) (cdesc_controllers env) c 0)
      as [env1 r].
    simpl in F, R, S. subst r.
    destruct F as (Hcon & Hcs & _ & _ & _ & _ & _ & Htrace).
    exists env1. repeat split; auto.
Qed.

Lemma last_cons_default {A : Type} (l : list A) : forall a d : A,
  last (a :: l) d = last l a.
Proof.
  induction l as [|b l IH]; intros a d; [reflexivity|].
  change (last (a :: b :: l) d) with (last (b :: l) d).
  rewrite (IH b d), (IH b a). reflexivity.
Qed.

(** The control values go out in order, each once.  A control that differs
    from the cache and has at least as many values as the channels take
    together, applied with a peer that takes every message: channel after
    channel is sent a request with a slice of exactly its dimension, and
    the slices put end to end are the leading values of the control, as
    many as the channels take. *)
Theorem applyControl_partitions (env : MyEnvironment T) (c : list T) :
  list_eqb (con env) c = false ->
  sends_ok (sockC env) = true ->
  list_sum (map ctl_dim (cdesc_controllers env)) <= List.length c ->
  exists env1 sl,
    applyControl env c = (env1, Ok tt)
    /\ trace (sockC env1)
       = trace (sockC env)
         ++ map Sent (map (fun p => request_for (fst p) (snd p))
                          (combine (cdesc_controllers env) sl))
    /\ Forall2 (fun ctl s => List.length s = ctl_dim ctl)
               (cdesc_controllers env) sl
    /\ List.concat sl = firstn (list_sum (map ctl_dim (cdesc_controllers env))) c.
Proof.
  intros Hne Hok Hlen.
  destruct (applyControl_dispatch env c Hok) as (env1 & Hrun & _ & _ & _ & Htr).
  rewrite Hne in Htr.
  exists env1, (slices (cdesc_controllers env) c 0).
  split; [exact Hrun|]. split.
  - rewrite Htr, requests_slices. reflexivity.
  - split; [apply slices_exact; simpl; exact Hlen|].
    rewrite slices_concat. reflexivity.
Qed.

(** A sequence of controls applied one after the other with a peer that
    takes every message: every call returns, the requests on the wire are
    those of the controls that differ from the one in force before them,
    in order, and the cache ends as the last of these. *)
Theorem applyControl_sequence (controls : list (list T)) :
  forall env : MyEnvironment T,
    sends_ok (sockC env) = true ->
    exists env',
      apply_all env controls = (env', Ok tt)
      /\ con env' = last (changes (con env) controls) (con env)
      /\ trace (sockC env')
         = trace (sockC env)
           ++ map Sent (flat_map (fun c => requests (cdesc_controllers env) c 0)
                                 (changes (con env) controls)).
Proof.
  induction controls as [|c controls IH]; intros env Hok.
  - exists env. simpl. rewrite app_nil_r. repeat split.
  - destruct (applyControl_dispatch env c Hok)
      as (env1 & Hrun & Hok1 & Hcs & Hcon & Htr).
    destruct (IH env1 Hok1) as (env' & Hall & Hcon' & Htr').
    exists env'. cbn [apply_all changes]. rewrite Hrun.
    split; [exact Hall|].
    rewrite Hcon', Htr', Htr, Hcs, Hcon.
    destruct (list_eqb (con env) c).
    + rewrite app_nil_r. split; reflexivity.
    + split; [rewrite last_cons_default; reflexivity|].
      cbn [flat_map]. rewrite map_app, <- app_assoc. reflexivity.
Qed.

End ControlSlices.

(** The control [[0.5, -1.0, 2.0]] on the two channels of the demo
    environment: two values for the first, one for the second. *)
Lemma applyControl_partitions_witness :
  exists env1 sl,
    applyControl demo_env [0.5; -1; 2]%float = (env1, Ok tt)
    /\ trace (sockC env1)
       = trace (sockC demo_env)
         ++ map Sent (map (fun p => request_for (fst p) (snd p))
                          (combine (cdesc_controllers demo_env) sl))
    /\ Forall2 (fun ctl s => List.length s = ctl_dim ctl)
               (cdesc_controllers demo_env) sl
    /\ List.concat sl = firstn 3 [0.5; -1; 2]%float.
Proof.
  exact (applyControl_partitions demo_env [0.5; -1; 2]%float
           eq_refl eq_refl ltac:(simpl; lia)).
Defined.

(** Four controls in a row, of which the first is the cache and the third
    repeats the second: two are sent. *)
Lemma applyControl_sequence_witness :
  let controls := [[0; 0; 0]; [0.5; -1; 2]; [0.5; -1; 2]; [0; 0; 0]]%float in
  exists env',
    apply_all demo_env controls = (env', Ok tt)
    /\ con env' = [0; 0; 0]%float
    /\ trace (sockC env')
       = map Sent (requests (cdesc_controllers demo_env) [0.5; -1; 2]%float 0
                   ++ requests (cdesc_controllers demo_env) [0; 0; 0]%float 0).
Proof.
  intro controls.
  destruct (applyControl_sequence controls demo_env eq_refl)
    as (env' & H1 & H2 & H3).
  exists env'. split; [exact H1|]. split; [exact H2|].
  rewrite H3. vm_compute. reflexivity.
Defined.

(* ================================================================= *)
(** ** More on the world stepper: durations that ask for no tick *)

Lemma round_half_even_nonpos (n d : Z) :
  (n <= 0)%Z -> (0 < d)%Z -> (round_half_even n d <= 0)%Z.
Proof.
  intros Hn Hd. unfold round_half_even.
  pose proof (Z.div_mod n d ltac:(lia)) as E.
  pose proof (Z.mod_pos_bound n d Hd) as Hr.
  assert (Hq : (n / d <= 0)%Z) by (apply Z.div_le_upper_bound; lia).
  assert (Hq0 : (n / d = 0 -> n mod d = 0)%Z).
  { intro H0. rewrite H0 in E. lia. }
  destruct (Z.compare_spec (2 * (n mod d)) d) as [H|H|H]; [|lia|].
  - destruct (Z.even (n / d)); lia.
  - lia.
Qed.

(** [int(round(x))] of a binary64 that is not above zero is not above
    zero, when it is defined. *)
Lemma float_round_nonpos (x : float) :
  match Prim2SF x with
  | S754_zero _ | S754_infinity _ | S754_nan | S754_finite true _ _ => True
  | S754_finite false _ _ => False
  end ->
  match float_round x with
  | Ok n => (n <= 0)%Z
  | Raise _ => True
  end.
Proof.
  unfold float_round.
  destruct (Prim2SF x) as [s|s| |[|] m e]; intro H; try exact I; try lia;
    try contradiction.
  destruct e as [|p|p].
  - lia.
  - pose proof (Z.pow_pos_nonneg 2 (Z.pos p) ltac:(lia) ltac:(lia)). nia.
  - apply round_half_even_nonpos; [lia|].
    apply Z.pow_pos_nonneg; lia.
Qed.

Lemma tick_count_nonpos (dur : float) :
  PrimFloat.leb dur 0 = true ->
  match tick_count dur with
  | Ok n => (n <= 0)%Z
  | Raise _ => True
  end.
Proof.
  intro H. rewrite leb_spec in H.
  unfold tick_count. cbn [num_round num_div num_of_int PyNum_float].
  apply float_round_nonpos.
  rewrite div_spec.
  assert (Hc : Prim2SF (float_of_Z 1 / float_of_Z 60)
               = S754_finite false 4803839602528529 (-58)) by (vm_compute; reflexivity).
  rewrite Hc.
  change (Prim2SF 0) with (S754_zero false) in H.
  destruct (Prim2SF dur) as [s|s| |s m e]; unfold SF64div, SFdiv.
  - exact I.
  - exact I.
  - exact I.
  - destruct s; [|discriminate H].
    destruct (SFdiv_core_binary _ _ _ _ _ _) as [[mz ez] lz].
    unfold binary_round_aux.
    destruct (shr_fexp _ _ mz ez lz) as [mrs e1].
    destruct (shr_fexp _ _ _ e1 _) as [mrs2 e2].
    simpl xorb.
    destruct (shr_m mrs2); try exact I.
    destruct (_ <=? _)%Z; exact I.
Qed.

(** A duration that is not above zero asks for no tick: nothing goes out
    and [self] is left as it was; the call returns unless [round] raises,
    which it does when the quotient is the negative infinity. *)
Theorem worldStep_not_positive (B : PyBuiltins float)
    (env : MyEnvironment float) (dur : float) :
  PrimFloat.leb dur 0 = true ->
  worldStep env dur
  = (env, match tick_count dur with Ok _ => Ok tt | Raise e => Raise e end).
Proof.
  intro H. pose proof (tick_count_nonpos dur H) as Hn.
  unfold worldStep. destruct (tick_count dur) as [n|e]; [|reflexivity].
  replace (Z.to_nat n) with 0 by lia. reflexivity.
Qed.

(** Half a second back in time. *)
Lemma worldStep_not_positive_witness :
  worldStep demo_env (-0.5)%float = (demo_env, Ok tt).
Proof.
  exact (worldStep_not_positive demo_builtins demo_env (-0.5)%float eq_refl).
Defined.

(** A duration that is a NaN or an infinity makes [round] raise before any
    tick is requested: [ValueError] for a NaN, [OverflowError] for an
    infinity. *)
Theorem worldStep_not_finite (B : PyBuiltins float)
    (env : MyEnvironment float) (dur : float) :
  is_finite dur = false ->
  worldStep env dur
  = (env, Raise (match classify dur with
                 | NaN => ValueError
                 | _ => OverflowError
                 end)).
Proof.
  unfold is_finite. intro H.
  destruct (classify dur) eqn:E; try discriminate H.
  - rewrite (classify_pinf dur E). reflexivity.
  - rewrite (classify_ninf dur E). reflexivity.
  - rewrite (classify_nan dur E). reflexivity.
Qed.

(** A duration that is a NaN. *)
Lemma worldStep_not_finite_witness :
  worldStep demo_env nan = (demo_env, Raise ValueError).
Proof.
  exact (worldStep_not_finite demo_builtins demo_env nan eq_refl).
Defined.

(* ================================================================= *)
(** ** More on the state codec: reading back what was written *)

Section Answered.
Context {T : Type} {N : PyNum T} {B : PyBuiltins T}.

(** A call whose message goes out and whose reply decodes returns the
    decoded value. *)
Lemma call_answered (env : MyEnvironment T) (cmd reply : string)
    (replies : list (option string)) (v : pyval T) :
  next_send_ok (sockS env) = true ->
  recv_script (sockS env) = Some reply :: replies ->
  eval_reply reply = Ok v ->
  exists env', call env cmd = (env', Ok v).
Proof.
  unfold next_send_ok, call, sendall, recv. intros Hs Hr Hv.
  destruct (send_script (sockS env)) as [|[|] sends]; try discriminate Hs;
    simpl; rewrite Hr, Hv; eexists; reflexivity.
Qed.

End Answered.

Section ReadBack.
Variable repr_finite : float -> string.

Lemma entries_of_bodies (l : list (body_tuple float)) :
  forallb entry_ok (map body_value l) = true
  /\ flat_map entry_blocks (map body_value l) = blocks_of l.
Proof.
  induction l as [|bt l [IH1 IH2]]; [split; reflexivity|].
  destruct bt as [[[p0 p1] p2] [[l0 l1] l2] [[a0 a1] a2] [[[w x] y] z]].
  split.
  - cbn [map forallb]. rewrite IH1. reflexivity.
  - cbn [map flat_map]. rewrite IH2. reflexivity.
Qed.

(** What [writeState] sends is what [readState] reads.  Let the text
    [writeState] puts on the wire for a state come back as the reply to
    [extractState()]: [readState] then fills any state of the same layout
    with the numbers of the first, the infinities and the NaN included. *)
Theorem readState_restores (env : MyEnvironment float)
    (state state0 : State float) (l : list (body_tuple float))
    (replies : list (option string)) :
  layout (rigidBodies_ env) state = true ->
  layout (rigidBodies_ env) state0 = true ->
  (forall f, In f (state_nums state) -> is_finite f = true ->
             repr_round_trips repr_finite f) ->
  stateToList env state = Ok l ->
  next_send_ok (sockS env) = true ->
  recv_script (sockS env)
  = Some (state_text (B := float_builtins repr_finite) l) :: replies ->
  exists env',
    readState (B := float_builtins repr_finite) env state0 = (env', state, Ok tt).
Proof.
  intros L L0 H Hl Hs Hr.
  destruct (stateToList_layout env state L) as (l' & Hl' & Hb & Hlen).
  rewrite Hl in Hl'. inversion Hl'; subst l'; clear Hl'.
  assert (H' : forall f, In f (flat_map body_nums l) -> is_finite f = true ->
                         repr_round_trips repr_finite f).
  { intros f Hf. apply H. rewrite <- Hb, blocks_of_nums. exact Hf. }
  assert (Hev : eval_reply (B := float_builtins repr_finite)
                  (state_text (B := float_builtins repr_finite) l)
                = Ok (state_value l)).
  { rewrite (state_text_replaced repr_finite l H').
    rewrite <- (literal_eval_state repr_finite l H').
    unfold repr_state, repr_list. reflexivity. }
  destruct (call_answered (B := float_builtins repr_finite) env "extractState()"
              _ replies _ Hs Hr Hev) as (env' & Hcall).
  exists env'. unfold readState. rewrite Hcall. unfold state_value.
  pose proof (read_bodies_layout (map body_value l) (rigidBodies_ env) [] state0 L0)
    as R.
  cbn [List.length app] in R.
  destruct (run (read_bodies (map body_value l) 0) state0) as [state' r].
  destruct (entries_of_bodies l) as [Hok Hblocks].
  rewrite length_map, Hlen, Nat.leb_refl, Hok, Hblocks, Hb in R.
  destruct R as [-> ->].
  rewrite skipn_all2 by (rewrite (layout_length _ state0 L0); lia).
  rewrite app_nil_r. reflexivity.
Qed.

End ReadBack.

(** A body with unbounded and undefined velocities, written and read back
    into the demo state. *)
Lemma readState_restores_witness :
  let state : State float :=
    [RealVector (0.5, -2.25, 3)%float;
     RealVector (infinity, neg_infinity, nan);
     RealVector (0, -0, 1024)%float;
     SO3 (1, 0, 0, 0)%float] in
  let l :=
    [BodyTuple (0.5, -2.25, 3)%float (infinity, neg_infinity, nan)
               (0, -0, 1024)%float (1, 0, 0, 0)%float] in
  exists env',
    readState (demo_env_with [] [Some (state_text l)]) demo_state
    = (env', state, Ok tt).
Proof.
  intros state l.
  refine (readState_restores repr_exact (demo_env_with [] [Some (state_text l)])
            state demo_state l [] eq_refl eq_refl _ eq_refl eq_refl eq_refl).
  intros f Hin Hfin. simpl in Hin.
  repeat (destruct Hin as [<-|Hin];
          [first [discriminate Hfin | split; vm_compute; reflexivity]|]).
  contradiction.
Defined.

(* ================================================================= *)
(** ** The projection *)

Section ProjectionFacts.
Context {T : Type} {N : PyNum T}.

(** [project] writes the first [getDimension] entries of the projection
    and no other: on a state of two bodies or more they become the first
    two coordinates of the position of body 1, the block the hard-wired
    index 4 stands for, whatever the projection held before. *)
Theorem project_reads_body_1 (n : nat) (state : State T) (projection : list T) :
  layout n state = true ->
  2 <= n ->
  getDimension <= List.length projection ->
  project state projection
  = (at3 (bt_pos (body_of state 1)) 0 :: at3 (bt_pos (body_of state 1)) 1
       :: skipn getDimension projection,
     Ok tt).
Proof.
  intros L Hn Hp.
  destruct n as [|[|n]]; try lia.
  destruct state as [|[p|] [|[v|] [|[a|] [|[|q] rest]]]]; try discriminate L.
  simpl in L.
  destruct rest as [|[p'|] [|[v'|] [|[a'|] [|[|q'] rest]]]]; try discriminate L.
  destruct projection as [|x [|y projection]];
    unfold getDimension in Hp; simpl in Hp; try lia.
  reflexivity.
Qed.

End ProjectionFacts.

(** Two bodies in exact arithmetic, the second at [(7, 8, 9)]. *)
Lemma project_reads_body_1_witness :
  project (state_off_by (3 # 10)%Q
           ++ [RealVector (7, 8, 9)%Q; RealVector (0, 0, 0)%Q;
               RealVector (0, 0, 0)%Q; SO3 (1, 0, 0, 0)%Q])
          [0; 0]%Q
  = ([7; 8]%Q, Ok tt).
Proof.
  exact (project_reads_body_1 2
           (state_off_by (3 # 10)%Q
            ++ [RealVector (7, 8, 9)%Q; RealVector (0, 0, 0)%Q;
                RealVector (0, 0, 0)%Q; SO3 (1, 0, 0, 0)%Q])
           [0; 0]%Q eq_refl ltac:(lia) ltac:(unfold getDimension; simpl; lia)).
Defined.
